(** * Notes API (main.py): a shallow embedding and its specification

    The program is a FastAPI application that answers read-only queries
    over one MongoDB collection of notes.  The embedding follows main.py
    handler by handler:

    - a document is a Python [dict], modelled as a [gmap string Value];
    - the collection is the list of its documents in natural order;
    - a handler either returns its response or raises; [try ... except
      Exception] is modelled by [try_except], which turns every raised
      exception into [HTTPException 500];
    - Python's [int / int] is IEEE-754 binary64 division (Corelib's
      [SpecFloat]) and [math.ceil] is the exact ceiling of that float;
    - the store's [$regex] operator is modelled on a documented fragment
      of the pattern syntax. *)

From Stdlib Require Import ZArith List String Ascii Lia Bool.
From Stdlib Require Import DecimalString Sorting.Sorted Permutation.
From Stdlib Require Import Floats.SpecFloat.
From stdpp Require Import gmap strings list sorting.

Local Open Scope string_scope.
Local Open Scope Z_scope.

(** ** Values and documents *)

(** A BSON ObjectId is twelve bytes. *)
Record ObjectId := { oid_bytes : list Byte.byte }.

(** The field values that occur in the collection. *)
Inductive Value :=
| VNull
| VStr (s : string)
| VInt (n : Z)
| VOid (o : ObjectId).

#[global] Instance byte_eq_dec : EqDecision Byte.byte := Byte.byte_eq_dec.

#[global] Instance ObjectId_eq_dec : EqDecision ObjectId.
Proof. solve_decision. Defined.

#[global] Instance Value_eq_dec : EqDecision Value.
Proof. solve_decision. Defined.

(** A document ([dict]) maps field names to values. *)
Abbreviation Doc := (gmap string Value).

(** ** Python's [str] *)

Definition hex_digit (n : N) : ascii :=
  ascii_of_N (if (n <? 10)%N then 48 + n else 87 + n)%N.

Definition hex_of_byte (b : Byte.byte) : string :=
  let n := Byte.to_N b in
  String (hex_digit (n / 16)) (String (hex_digit (n mod 16)) EmptyString).

(** [str(ObjectId)] is the 24-digit lower-case hexadecimal form. *)
Definition str_oid (o : ObjectId) : string :=
  String.concat "" (map hex_of_byte (oid_bytes o)).

(** [str(n)] for an [int]. *)
Definition str_int (n : Z) : string :=
  NilZero.string_of_int (Z.to_int n).

Definition py_str (v : Value) : string :=
  match v with
  | VNull => "None"
  | VStr s => s
  | VInt n => str_int n
  | VOid o => str_oid o
  end.

(** ** Exceptions and handler outcomes *)

(** The exceptions that reach a handler.  All of them derive from
    Python's [Exception], [HTTPException] included. *)
Inductive exn :=
| HTTPException (status_code : Z) (detail : string)
| RequestValidationError
| OperationFailure (msg : string)
| ZeroDivisionError
| OverflowError (msg : string)
| ValueError (msg : string).

(** [str(e)].  Starlette's [HTTPException.__str__] renders
    ["{status_code}: {detail}"]. *)
Definition str_exn (e : exn) : string :=
  match e with
  | HTTPException c d => str_int c ++ ": " ++ d
  | RequestValidationError => "validation error"
  | OperationFailure m => m
  | ZeroDivisionError => "division by zero"
  | OverflowError m => m
  | ValueError m => m
  end.

Inductive outcome (A : Type) :=
| Returns (a : A)
| Raises (e : exn).
Arguments Returns {A} a.
Arguments Raises {A} e.

(** Sequencing: a raised exception skips the rest of the body. *)
#[global] Instance outcome_bind : MBind outcome :=
  fun A B (k : A -> outcome B) (m : outcome A) =>
    match m with
    | Returns a => k a
    | Raises e => Raises e
    end.

#[global] Instance outcome_ret : MRet outcome := @Returns.

#[global] Instance outcome_fmap : FMap outcome :=
  fun A B (f : A -> B) (m : outcome A) =>
    match m with
    | Returns a => Returns (f a)
    | Raises e => Raises e
    end.

(** [try: body  except Exception as e: raise HTTPException(500, str(e))]:
    the handler catches every exception the body raises. *)
Definition try_except {A} (body : outcome A) : outcome A :=
  match body with
  | Returns a => Returns a
  | Raises e => Raises (HTTPException 500 (str_exn e))
  end.

(** The status code the framework answers with. *)
Definition status {A} (r : outcome A) : Z :=
  match r with
  | Returns _ => 200
  | Raises (HTTPException c _) => c
  | Raises RequestValidationError => 422
  | Raises _ => 500
  end.

(** ** serialize_doc / serialize_docs *)

(** [if doc and "_id" in doc: doc["id"] = str(doc["_id"]); del doc["_id"]]. *)
Definition serialize_doc (doc : Doc) : Doc :=
  match doc !! "_id" with
  | Some v => delete "_id" (<["id" := VStr (py_str v)]> doc)
  | None => doc
  end.

(** [[serialize_doc(doc.copy()) for doc in docs]]: values are immutable
    here, so the copy is the document itself. *)
Definition serialize_docs (docs : list Doc) : list Doc :=
  map serialize_doc docs.

(** ** Python arithmetic used by the pagination code *)

Module PyFloat.

(** binary64 *)
Definition prec : Z := 53.
Definition emax : Z := 1024.

(** An [int] enters a true division with its exact value. *)
Definition of_int (n : Z) : spec_float :=
  match n with
  | Z0 => S754_zero false
  | Zpos p => S754_finite false p 0
  | Zneg p => S754_finite true p 0
  end.

(** [a / b] on two [int]s: the correctly rounded binary64 quotient.
    CPython raises instead of returning an infinity. *)
Definition truediv (a b : Z) : outcome spec_float :=
  if b =? 0 then Raises ZeroDivisionError
  else
    match SFdiv prec emax (of_int a) (of_int b) with
    | S754_infinity _ | S754_nan =>
        Raises (OverflowError "integer division result too large for a float")
    | f => Returns f
    end.

(** [math.ceil(f)]: the least [int] not below the float's exact value. *)
Definition ceil (f : spec_float) : outcome Z :=
  match f with
  | S754_zero _ => Returns 0
  | S754_finite s m e =>
      let n := if s then Zneg m else Zpos m in
      Returns (if 0 <=? e then n * 2 ^ e else - ((- n) / 2 ^ (- e)))
  | S754_infinity _ =>
      Raises (OverflowError "cannot convert float infinity to integer")
  | S754_nan =>
      Raises (ValueError "cannot convert float NaN to integer")
  end.

End PyFloat.

(** [math.ceil(total_count / limit)] *)
Definition total_pages_of (total_count limit : Z) : outcome Z :=
  f ← PyFloat.truediv total_count limit; PyFloat.ceil f.

(** The mathematical ceiling of [a / b], for comparison. *)
Definition ceil_div (a b : Z) : Z := (a + b - 1) / b.

(** ** Text: characters, case folding, containment *)

Definition is_upper (c : ascii) : bool :=
  let n := nat_of_ascii c in (65 <=? n)%nat && (n <=? 90)%nat.

Definition lower (c : ascii) : ascii :=
  if is_upper c then ascii_of_nat (nat_of_ascii c + 32) else c.

Definition chars (s : string) : list ascii := list_ascii_of_string s.


(** ** The store's regular expressions (option [i])

    The fragment covered: ordinary characters, [.] (any character but a
    newline), a backslash followed by a punctuation character (that
    character, literally), and the quantifiers [*], [+], [?] applied to
    one such atom.  Patterns that use anchors, classes, groups,
    alternation, counted repetition, alphanumeric escapes or stacked
    quantifiers lie outside the fragment: [regex_compile] answers [None]
    for them and the model says nothing about the request. *)

Inductive atom := Lit (c : ascii) | Dot.
Inductive quant := Once | Star | Plus | Opt.
Definition piece : Type := atom * quant.

Inductive char_class := Ordinary | AnyChar | Escape | Quantifier | Unmodelled.

Definition is_alnum (c : ascii) : bool :=
  let n := nat_of_ascii c in
  ((48 <=? n)%nat && (n <=? 57)%nat) ||
  ((65 <=? n)%nat && (n <=? 90)%nat) ||
  ((97 <=? n)%nat && (n <=? 122)%nat).

Definition backslash : ascii := ascii_of_nat 92.

Definition classify (c : ascii) : char_class :=
  if (c =? ".")%char then AnyChar
  else if (c =? backslash)%char then Escape
  else if (c =? "*")%char || (c =? "+")%char || (c =? "?")%char then Quantifier
  else if (c =? "^")%char || (c =? "$")%char || (c =? "[")%char ||
          (c =? "{")%char || (c =? "(")%char || (c =? ")")%char ||
          (c =? "|")%char then Unmodelled
  else Ordinary.

(** A pattern without metacharacters. *)
Definition plain (q : string) : Prop :=
  Forall (fun c => classify c = Ordinary) (chars q).

Definition quant_of (c : ascii) : option quant :=
  if (c =? "*")%char then Some Star
  else if (c =? "+")%char then Some Plus
  else if (c =? "?")%char then Some Opt
  else None.

(** What follows an atom: its quantifier, if any, and the rest. *)
Definition take_quant (rest : list ascii) : quant * list ascii :=
  match rest with
  | c :: rest' =>
      match quant_of c with
      | Some k => (k, rest')
      | None => (Once, rest)
      end
  | [] => (Once, [])
  end.

(** [None]: outside the fragment.  [Some (Raises _)]: the store rejects
    the pattern.  [fuel] bounds the number of atoms. *)
Fixpoint parse (fuel : nat) (cs : list ascii) : option (outcome (list piece)) :=
  match cs with
  | [] => Some (Returns [])
  | c :: rest =>
      match fuel with
      | O => None
      | S fuel' =>
          let continue (a : atom) (rest : list ascii) :=
            let '(k, rest') := take_quant rest in
            match k, rest' with
            | (Star | Plus | Opt), c' :: _ =>
                match quant_of c' with
                | Some _ => None
                | None =>
                    r ← parse fuel' rest'; Some (ps ← r; Returns ((a, k) :: ps))
                end
            | _, _ =>
                r ← parse fuel' rest'; Some (ps ← r; Returns ((a, k) :: ps))
            end in
          match classify c with
          | Ordinary => continue (Lit c) rest
          | AnyChar => continue Dot rest
          | Escape =>
              match rest with
              | [] => Some (Raises (OperationFailure
                        "Regular expression is invalid: trailing backslash"))
              | d :: rest' =>
                  if is_alnum d then None else continue (Lit d) rest'
              end
          | Quantifier => Some (Raises (OperationFailure
                        "Regular expression is invalid: quantifier does not follow a repeatable item"))
          | Unmodelled => None
          end
      end
  end.

Definition regex_compile (pattern : string) : option (outcome (list piece)) :=
  parse (String.length pattern) (chars pattern).

Definition newline : ascii := ascii_of_nat 10.

Definition atom_matches (a : atom) (c : ascii) : bool :=
  match a with
  | Lit x => (lower x =? lower c)%char
  | Dot => negb (c =? newline)%char
  end.

(** Zero or more [a], then [k]. *)
Fixpoint match_star (a : atom) (k : list ascii -> bool) (s : list ascii) : bool :=
  k s ||
  match s with
  | c :: s' => atom_matches a c && match_star a k s'
  | [] => false
  end.

(** The pieces match a prefix of [s]. *)
Fixpoint match_here (ps : list piece) (s : list ascii) : bool :=
  match ps with
  | [] => true
  | (a, Once) :: ps' =>
      match s with
      | c :: s' => atom_matches a c && match_here ps' s'
      | [] => false
      end
  | (a, Star) :: ps' => match_star a (match_here ps') s
  | (a, Plus) :: ps' =>
      match s with
      | c :: s' => atom_matches a c && match_star a (match_here ps') s'
      | [] => false
      end
  | (a, Opt) :: ps' =>
      match_here ps' s ||
      match s with
      | c :: s' => atom_matches a c && match_here ps' s'
      | [] => false
      end
  end.

(** An unanchored pattern matches when it matches at some position. *)
Fixpoint regex_search (ps : list piece) (s : list ascii) : bool :=
  match_here ps s ||
  match s with
  | _ :: s' => regex_search ps s'
  | [] => false
  end.

(** ** The collection and its queries *)

(** [notes_collection]: the stored documents, in natural order. *)
Abbreviation Collection := (list Doc).

(** A compiled filter document. *)
Definition Filter : Type := Doc -> bool.

(** [{}] *)
Definition match_all : Filter := fun _ => true.

(** [{field: value}] *)
Definition field_eq (field : string) (v : Value) : Filter :=
  fun doc => bool_decide (doc !! field = Some v).

(** [{field: {"$regex": q, "$options": "i"}}], the pattern compiled:
    only string fields can match. *)
Definition field_regex (field : string) (ps : list piece) : Filter :=
  fun doc =>
    match doc !! field with
    | Some (VStr s) => regex_search ps (chars s)
    | _ => false
    end.

(** [{"$or": conditions}] *)
Definition f_or (conditions : list Filter) : Filter :=
  fun doc => existsb (fun f => f doc) conditions.

(** A filter document with two keys is their conjunction. *)
Definition f_and (f g : Filter) : Filter :=
  fun doc => f doc && g doc.

Definition find (query : Filter) (coll : Collection) : list Doc :=
  List.filter query coll.

Definition count_documents (query : Filter) (coll : Collection) : Z :=
  Z.of_nat (length (find query coll)).

(** [cursor.skip(n)] *)
Definition cursor_skip (n : Z) (docs : list Doc) : outcome (list Doc) :=
  if n <? 0 then Raises (ValueError "skip must be >= 0")
  else Returns (drop (Z.to_nat n) docs).

(** [cursor.limit(n)]: zero means no limit. *)
Definition cursor_limit (n : Z) (docs : list Doc) : list Doc :=
  if n =? 0 then docs else take (Z.to_nat (Z.abs n)) docs.

(** *** Aggregation stages *)

(** [{"$sample": {"size": 1}}]; [draw] is the store's random choice. *)
Definition sample_one (draw : nat) (coll : Collection) : list Doc :=
  take 1 (drop (draw mod length coll)%nat coll).

(** ["$folder"]: a missing field groups with null. *)
Definition field_or_null (field : string) (doc : Doc) : Value :=
  default VNull (doc !! field).

Fixpoint bump (k : Value) (groups : list (Value * Z)) : list (Value * Z) :=
  match groups with
  | [] => [(k, 1)]
  | (k', n) :: rest =>
      if decide (k = k') then (k', n + 1) :: rest else (k', n) :: bump k rest
  end.

(** The groups of a [$group] stage with their sizes, in order of first
    occurrence. *)
Definition group_sizes (field : string) (coll : Collection) : list (Value * Z) :=
  foldl (fun groups doc => bump (field_or_null field doc) groups) [] coll.

(** [{"$group": {"_id": "$folder", "note_count": {"$sum": 1}}}] *)
Definition group_count (field : string) (coll : Collection) : list Doc :=
  map (fun g : Value * Z =>
         ({[ "_id" := g.1; "note_count" := VInt g.2 ]} : Doc))
      (group_sizes field coll).

(** [{"$group": {"_id": "$folder"}}] *)
Definition group_distinct (field : string) (coll : Collection) : list Doc :=
  map (fun g : Value * Z => ({[ "_id" := g.1 ]} : Doc))
      (group_sizes field coll).

(** The store's comparison order on values: null, numbers, strings,
    object ids; strings compare character by character. *)
Definition type_rank (v : Value) : Z :=
  match v with
  | VNull => 0
  | VInt _ => 1
  | VStr _ => 2
  | VOid _ => 3
  end.

Definition value_leb (v w : Value) : bool :=
  match v, w with
  | VInt a, VInt b => a <=? b
  | VStr s, VStr t => String.leb s t
  | VOid a, VOid b => String.leb (str_oid a) (str_oid b)
  | _, _ => type_rank v <=? type_rank w
  end.

Definition ascending (field : string) (a b : Doc) : Prop :=
  value_leb (field_or_null field a) (field_or_null field b) = true.

Definition descending (field : string) (a b : Doc) : Prop :=
  ascending field b a.

#[global] Instance ascending_dec field a b : Decision (ascending field a b).
Proof. unfold ascending. apply _. Defined.

#[global] Instance descending_dec field a b : Decision (descending field a b).
Proof. unfold descending. apply _. Defined.

(** [{"$sort": {field: 1}}] and [{"$sort": {field: -1}}] *)
Definition sort_asc (field : string) (docs : list Doc) : list Doc :=
  merge_sort (ascending field) docs.

Definition sort_desc (field : string) (docs : list Doc) : list Doc :=
  merge_sort (descending field) docs.

(** [{"$project": {"name": "$_id", "note_count": 1, "_id": 0}}] *)
Definition project_name_count (doc : Doc) : Doc :=
  let named :=
    match doc !! "_id" with
    | Some v => <["name" := v]> doc
    | None => doc
    end in
  filter (fun kv => kv.1 = "name" \/ kv.1 = "note_count") named.

(** [{"$project": {"name": "$_id", "_id": 0}}] *)
Definition project_name (doc : Doc) : Doc :=
  match doc !! "_id" with
  | Some v => {[ "name" := v ]}
  | None => ∅
  end.

(** ** Request parameters *)

(** [Query(default, ge=.., le=..)] on an [int] parameter: the default
    when the parameter is absent, a validation error out of bounds. *)
Definition Query_int (dflt : Z) (ge le : option Z) (given : option Z) : outcome Z :=
  let v := default dflt given in
  if from_option (fun lo => lo <=? v) true ge &&
     from_option (fun hi => v <=? hi) true le
  then Returns v else Raises RequestValidationError.

(** [Query(..., min_length=n)] on a required [str] parameter. *)
Definition Query_str (min_length : nat) (given : option string) : outcome string :=
  match given with
  | Some s =>
      if (min_length <=? String.length s)%nat then Returns s
      else Raises RequestValidationError
  | None => Raises RequestValidationError
  end.

(** Python's truth value of an [Optional[str]]. *)
Definition truthy (s : option string) : bool :=
  match s with
  | Some (String _ _) => true
  | _ => false
  end.

(** ** Responses *)

Record Page := {
  results : list Doc;
  count : Z;
  folder : option string;      (* present in the by-folder listing only *)
  next : option string;
  previous : option string
}.

Record Data (A : Type) := { data : A }.
Arguments data {A} _.
Arguments Build_Data {A} _.

Record FolderNotes := {
  folder_name : string;
  note_count : Z;
  notes : list Doc
}.

(** ** The handlers *)

(** GET / *)
Definition root : outcome string := Returns "Notes API is running".

(** GET /notes/ *)
Definition get_notes (page limit : option Z) (coll : Collection) : outcome Page :=
  page ← Query_int 1 (Some 1) None page;
  limit ← Query_int 50 (Some 1) (Some 100) limit;
  try_except (
    let skip := (page - 1) * limit in
    let total_count := count_documents match_all coll in
    notes ← cursor_limit limit <$> cursor_skip skip (find match_all coll);
    total_pages ← total_pages_of total_count limit;
    let next_url :=
      if page <? total_pages
      then Some ("/notes/?page=" ++ str_int (page + 1) ++ "&limit=" ++ str_int limit)
      else None in
    let prev_url :=
      if page >? 1
      then Some ("/notes/?page=" ++ str_int (page - 1) ++ "&limit=" ++ str_int limit)
      else None in
    Returns {| results := serialize_docs notes;
               count := total_count;
               folder := None;
               next := next_url;
               previous := prev_url |}).

(** GET /notes/search/ — [None] when [q] lies outside the modelled
    pattern fragment. *)
Definition search_notes (q folder : option string) (coll : Collection)
  : option (outcome (Data (list Doc))) :=
  match Query_str 1 q with
  | Raises e => Some (Raises e)
  | Returns q =>
      rx ← regex_compile q;
      Some (try_except (
        let search_conditions (ps : list piece) :=
          [field_regex "title" ps; field_regex "body" ps] in
        let search_query (ps : list piece) :=
          let base := f_or (search_conditions ps) in
          if truthy folder
          then f_and base (field_eq "folder" (VStr (default "" folder)))
          else base in
        ps ← rx;
        let notes := find (search_query ps) coll in
        Returns {| data := serialize_docs notes |}))
  end.

(** GET /notes/random/ *)
Definition get_random_note (draw : nat) (coll : Collection) : outcome (Data Doc) :=
  try_except (
    let notes := sample_one draw coll in
    match notes with
    | [] => Raises (HTTPException 404 "No notes found")
    | note :: _ => Returns {| data := serialize_doc note |}
    end).

(** GET /folders/ *)
Definition get_folders (coll : Collection) : outcome (Data (list Doc)) :=
  try_except (
    let folders :=
      map project_name_count (sort_desc "note_count" (group_count "folder" coll)) in
    Returns {| data := folders |}).

(** GET /folders/search/ — [None] when [q] lies outside the modelled
    pattern fragment. *)
Definition search_folders (q : option string) (coll : Collection)
  : option (outcome (Data (list Doc))) :=
  match Query_str 1 q with
  | Raises e => Some (Raises e)
  | Returns q =>
      rx ← regex_compile q;
      Some (try_except (
        ps ← rx;
        let folders :=
          sort_asc "name"
            (map project_name
               (List.filter (field_regex "_id" ps) (group_distinct "folder" coll))) in
        Returns {| data := folders |}))
  end.

(** GET /folders/{folder_name} *)
Definition get_folder_with_notes (folder_name : string) (coll : Collection)
  : outcome (Data FolderNotes) :=
  try_except (
    let notes := find (field_eq "folder" (VStr folder_name)) coll in
    match notes with
    | [] => Raises (HTTPException 404 "Folder not found or no notes in folder")
    | _ =>
        Returns {| data := {| folder_name := folder_name;
                              note_count := Z.of_nat (length notes);
                              notes := serialize_docs notes |} |}
    end).

(** GET /notes/by-folder/{folder_name} *)
Definition get_notes_by_folder (folder_name : string) (page limit : option Z)
    (coll : Collection) : outcome Page :=
  page ← Query_int 1 (Some 1) None page;
  limit ← Query_int 50 (Some 1) (Some 100) limit;
  try_except (
    let skip := (page - 1) * limit in
    let in_folder := field_eq "folder" (VStr folder_name) in
    let total_count := count_documents in_folder coll in
    if total_count =? 0
    then Raises (HTTPException 404 "Folder not found or no notes in folder")
    else
      notes ← cursor_limit limit <$> cursor_skip skip (find in_folder coll);
      total_pages ← total_pages_of total_count limit;
      let next_url :=
        if page <? total_pages
        then Some ("/notes/by-folder/" ++ folder_name ++ "?page=" ++
                   str_int (page + 1) ++ "&limit=" ++ str_int limit)
        else None in
      let prev_url :=
        if page >? 1
        then Some ("/notes/by-folder/" ++ folder_name ++ "?page=" ++
                   str_int (page - 1) ++ "&limit=" ++ str_int limit)
        else None in
      Returns {| results := serialize_docs notes;
                 count := total_count;
                 folder := Some folder_name;
                 next := next_url;
                 previous := prev_url |}).

(** ** Vocabulary of the specification *)


(** The page a listing handler builds over the notes [matching], written
    with the exact ceiling; [get_notes_valid] and
    [get_notes_by_folder_valid] show that the handlers return it. *)
Definition page_of (base : string) (folder : option string)
    (page limit : Z) (matching : list Doc) : Page :=
  {| results := serialize_docs
       (take (Z.to_nat limit) (drop (Z.to_nat ((page - 1) * limit)) matching));
     count := Z.of_nat (length matching);
     folder := folder;
     next :=
       if page <? ceil_div (Z.of_nat (length matching)) limit
       then Some (base ++ "?page=" ++ str_int (page + 1) ++ "&limit=" ++ str_int limit)
       else None;
     previous :=
       if page >? 1
       then Some (base ++ "?page=" ++ str_int (page - 1) ++ "&limit=" ++ str_int limit)
       else None |}.

(** Readers of an aggregation row. *)
Definition row_count (row : Doc) : Z :=
  match row !! "note_count" with
  | Some (VInt n) => n
  | _ => 0
  end.




(** The sum of [note_count] over rows, and of the sizes over groups. *)
Definition total_count_of (rows : list Doc) : Z :=
  foldr (fun row acc => row_count row + acc) 0 rows.

Definition sizes_total (groups : list (Value * Z)) : Z :=
  foldr (fun g acc => g.2 + acc) 0 groups.

(** The size recorded for key [k], zero when [k] has no group. *)
Fixpoint size_in (groups : list (Value * Z)) (k : Value) : Z :=
  match groups with
  | [] => 0
  | (k', n) :: rest => if decide (k = k') then n else size_in rest k
  end.

(** The number of notes whose folder value is [k] (null when absent). *)
Definition notes_in (k : Value) (coll : Collection) : Z :=
  Z.of_nat (length (List.filter
    (fun doc => bool_decide (field_or_null "folder" doc = k)) coll)).

(** The pieces of a pattern without metacharacters. *)
Definition literal_pieces (cs : list ascii) : list piece :=
  map (fun c => (Lit c, Once)) cs.

(** The note is in the response to a search for [q], no folder given. *)
Definition returned_by_search (q : string) (coll : Collection) (note : Doc) : Prop :=
  exists resp : Data (list Doc),
    search_notes (Some q) None coll = Some (Returns resp) /\
    serialize_doc note ∈ data resp.




(** *** Vocabulary of the further properties *)


(** The note's folder is exactly [f]. *)
Definition in_folder (f : string) (note : Doc) : Prop :=
  note !! "folder" = Some (VStr f).


(** Page numbers [1 .. n]. *)
Definition pages_upto (n : Z) : list Z :=
  map (fun i => Z.of_nat (S i)) (seq 0 (Z.to_nat n)).

(** ** Sample data *)

Definition sample_oid (n : N) : ObjectId :=
  {| oid_bytes := replicate 11 Byte.x00 ++ [default Byte.x00 (Byte.of_N n)] |}.

Definition sample_note (n : N) (title body folder : string) : Doc :=
  {[ "_id" := VOid (sample_oid n); "title" := VStr title;
     "body" := VStr body; "folder" := VStr folder ]}.

Definition hello_note : Doc := sample_note 1 "Hello World" "first" "A".

(** Three notes in folder A and two in folder B. *)
Definition sample_notes : Collection :=
  [ hello_note;
    sample_note 2 "Groceries" "milk, eggs" "A";
    sample_note 3 "Ideas" "a.b" "A";
    sample_note 4 "Travel" "pack bags" "B";
    sample_note 5 "Quotes" "say hello" "B" ].


(** * Proofs *)

(** ** [math.ceil(total_count / limit)] is the exact ceiling

    [SFdiv] computes a quotient of 53 or 54 bits with the position of
    the remainder, and [binary_round_aux] rounds it to nearest even.  For
    operands below [2 ^ 53] the rounded value stays strictly above
    [floor (a / b)] whenever a remainder is left, and never passes
    [floor (a / b) + 1], so its ceiling is the ceiling of [a / b]. *)

Section FloatCeiling.

Lemma digits2_pos_bounds (p : positive) :
  2 ^ (Zpos (digits2_pos p) - 1) <= Zpos p < 2 ^ Zpos (digits2_pos p).
Proof.
  induction p as [p IH | p IH |]; cbn [digits2_pos].
  - rewrite Pos2Z.inj_succ, Z.pow_succ_r by lia.
    replace (Z.succ (Zpos (digits2_pos p)) - 1) with (Z.succ (Zpos (digits2_pos p) - 1)) by lia.
    rewrite Z.pow_succ_r by lia. lia.
  - rewrite Pos2Z.inj_succ, Z.pow_succ_r by lia.
    replace (Z.succ (Zpos (digits2_pos p)) - 1) with (Z.succ (Zpos (digits2_pos p) - 1)) by lia.
    rewrite Z.pow_succ_r by lia. lia.
  - cbn. lia.
Qed.

Lemma digits2_pos_le (p : positive) (n : Z) :
  Zpos p < 2 ^ n -> 0 <= n -> Zpos (digits2_pos p) <= n.
Proof.
  intros Hlt Hn. destruct (digits2_pos_bounds p) as [Hlo _].
  destruct (Z_le_gt_dec (Zpos (digits2_pos p)) n) as [|Hgt]; [done|].
  assert (2 ^ n <= 2 ^ (Zpos (digits2_pos p) - 1)) by (apply Z.pow_le_mono_r; lia).
  lia.
Qed.

Lemma digits2_pos_ge (p : positive) (n : Z) :
  2 ^ n <= Zpos p -> n + 1 <= Zpos (digits2_pos p).
Proof.
  intros Hle. destruct (digits2_pos_bounds p) as [_ Hhi].
  destruct (Z_le_gt_dec (n + 1) (Zpos (digits2_pos p))) as [|Hgt]; [done|].
  assert (2 ^ Zpos (digits2_pos p) <= 2 ^ n) by (apply Z.pow_le_mono_r; lia).
  lia.
Qed.

(** The location computed from a remainder. *)
Lemma new_location_spec (b r : Z) :
  0 < b -> 0 <= r < b ->
  new_location b r = if r =? 0 then loc_Exact else loc_Inexact (2 * r ?= b).
Proof.
  intros Hb Hr. unfold new_location, new_location_even, new_location_odd.
  destruct (Z.even b) eqn:Hev.
  - destruct (Z.eqb_spec r 0); [done|]. done.
  - destruct (Z.eqb_spec r 0); [done|]. f_equal.
    assert (Hodd : Z.odd b = true) by (rewrite <- Z.negb_even, Hev; done).
    apply Z.odd_spec in Hodd as [k Hk].
    destruct (Z.compare_spec (2 * r + 1) b), (Z.compare_spec (2 * r) b); try done; lia.
Qed.

Lemma shr_fexp_53 (p : positive) (e : Z) (l : location) :
  Zpos (digits2_pos p) = 53 -> -1074 <= e ->
  shr_fexp 53 1024 (Zpos p) e l = (shr_record_of_loc (Zpos p) l, e).
Proof.
  intros Hd He. unfold shr_fexp, fexp, emin. cbn [Zdigits2]. rewrite Hd.
  replace (Z.max (53 + e - 53) (3 - 1024 - 53) - e) with 0 by lia.
  reflexivity.
Qed.

Lemma shr_fexp_54 (p : positive) (e : Z) (l : location) :
  Zpos (digits2_pos p) = 54 -> -1075 <= e ->
  shr_fexp 53 1024 (Zpos p) e l = (shr_1 (shr_record_of_loc (Zpos p) l), e + 1).
Proof.
  intros Hd He. unfold shr_fexp, fexp, emin. cbn [Zdigits2]. rewrite Hd.
  replace (Z.max (54 + e - 53) (3 - 1024 - 53) - e) with 1 by lia.
  reflexivity.
Qed.

Lemma digits_53_or_54 (p : positive) :
  2 ^ 52 <= Zpos p < 2 ^ 54 ->
  (Zpos (digits2_pos p) = 53 /\ Zpos p < 2 ^ 53) \/
  (Zpos (digits2_pos p) = 54 /\ 2 ^ 53 <= Zpos p).
Proof.
  intros [Hlo Hhi].
  pose proof (digits2_pos_ge p 52 Hlo) as H1.
  pose proof (digits2_pos_le p 54 Hhi ltac:(lia)) as H2.
  destruct (Z_lt_le_dec (Zpos p) (2 ^ 53)) as [Hlt|Hge].
  - left. split; [|done]. pose proof (digits2_pos_le p 53 Hlt ltac:(lia)). lia.
  - right. split; [|done]. pose proof (digits2_pos_ge p 53 Hge). lia.
Qed.

(** Renormalising a rounded mantissa keeps its value. *)
Lemma shr_fexp_exact_value (m e : Z) :
  2 ^ 52 <= m <= 2 ^ 53 -> -1074 <= e ->
  exists (rec : shr_record) (M : positive) (E : Z),
    shr_fexp 53 1024 m e loc_Exact = (rec, E) /\
    shr_m rec = Zpos M /\ e <= E <= e + 1 /\ Zpos M * 2 ^ (E - e) = m.
Proof.
  intros Hm He. destruct m as [|p|p]; try lia.
  destruct (digits_53_or_54 p ltac:(lia)) as [[Hd Hlt]|[Hd Hge]].
  - rewrite shr_fexp_53 by done. eexists _, p, e. repeat split; try done; try lia.
    rewrite Z.sub_diag. lia.
  - rewrite shr_fexp_54 by (done || lia).
    destruct p as [p|p|]; try lia.
    eexists _, p, (e + 1). cbn [shr_1 shr_record_of_loc shr_m].
    repeat split; try lia.
    replace (e + 1 - e) with 1 by lia. lia.
Qed.

Lemma loc_of_shr_record_of_loc (m : Z) (l : location) :
  loc_of_shr_record (shr_record_of_loc m l) = l.
Proof. destruct l as [|[]]; reflexivity. Qed.

Lemma shr_m_record_of_loc (m : Z) (l : location) :
  shr_m (shr_record_of_loc m l) = m.
Proof. destruct l as [|[]]; reflexivity. Qed.

(** The float that [binary_round_aux] builds from a 53- or 54-bit
    quotient [q] lies within one unit of [q], on the scale of [q]. *)
Lemma binary_round_aux_value (q e : Z) (l : location) :
  2 ^ 52 <= q < 2 ^ 54 -> -1074 <= e <= 900 ->
  exists (M : positive) (E : Z),
    binary_round_aux 53 1024 false q e l = S754_finite false M E /\
    e <= E <= e + 2 /\
    Zpos M * 2 ^ (E - e) <= q + 1 /\
    (q <= Zpos M * 2 ^ (E - e) \/
     (Zpos M * 2 ^ (E - e) = q - 1 /\ l = loc_Exact /\ Z.odd q = true)) /\
    (l = loc_Exact -> Z.even q = true -> Zpos M * 2 ^ (E - e) = q).
Proof.
  intros Hq He. destruct q as [|p|p]; try lia.
  unfold binary_round_aux.
  destruct (digits_53_or_54 p Hq) as [[Hd Hlt]|[Hd Hge]].
  - rewrite shr_fexp_53 by (done || lia).
    rewrite loc_of_shr_record_of_loc, shr_m_record_of_loc.
    set (m1 := round_nearest_even (Zpos p) l).
    assert (Hm1 : Zpos p <= m1 <= Zpos p + 1 /\ (l = loc_Exact -> m1 = Zpos p)).
    { subst m1. destruct l as [|[]]; cbn [round_nearest_even];
        try destruct (Z.even (Zpos p)); split; try done; lia. }
    destruct (shr_fexp_exact_value m1 e ltac:(lia) ltac:(lia))
      as (rec & M & E & -> & -> & HE & HV).
    exists M, E. replace (E <=? 1024 - 53) with true by lia.
    split; [done|]. rewrite HV. split; [lia|]. split; [lia|].
    split; [left; lia|]. intros Hl _. apply Hm1, Hl.
  - rewrite shr_fexp_54 by (done || lia).
    destruct p as [p|p|]; try lia.
    + (* q odd: the discarded bit is set *)
      set (rec1 := shr_1 (shr_record_of_loc (Zpos p~1) l)).
      set (m1 := round_nearest_even (shr_m rec1) (loc_of_shr_record rec1)).
      assert (Hm1 : Zpos p <= m1 <= Zpos p + 1 /\ (l <> loc_Exact -> m1 = Zpos p + 1)).
      { subst m1 rec1. destruct l as [|[]];
          cbn [shr_1 shr_record_of_loc shr_m loc_of_shr_record orb round_nearest_even];
          try destruct (Z.even (Zpos p)); split; try done; lia. }
      destruct (shr_fexp_exact_value m1 (e + 1) ltac:(lia) ltac:(lia))
        as (rec & M & E & -> & -> & HE & HV).
      exists M, E. replace (E <=? 1024 - 53) with true by lia.
      split; [done|].
      replace (E - e) with (Z.succ (E - (e + 1))) by lia.
      rewrite Z.pow_succ_r by lia.
      replace (Zpos M * (2 * 2 ^ (E - (e + 1)))) with (2 * m1) by lia.
      split; [lia|]. split; [lia|]. split.
      * destruct l as [|c].
        -- destruct (decide (m1 = Zpos p)); [right; split; [lia|done]|left; lia].
        -- left. rewrite (proj2 Hm1) by done. lia.
      * intros _ Hev. cbn in Hev. discriminate Hev.
    + (* q even *)
      set (rec1 := shr_1 (shr_record_of_loc (Zpos p~0) l)).
      set (m1 := round_nearest_even (shr_m rec1) (loc_of_shr_record rec1)).
      assert (Hm1 : m1 = Zpos p).
      { subst m1 rec1. destruct l as [|[]];
          cbn [shr_1 shr_record_of_loc shr_m loc_of_shr_record orb round_nearest_even];
          done. }
      destruct (shr_fexp_exact_value m1 (e + 1) ltac:(lia) ltac:(lia))
        as (rec & M & E & -> & -> & HE & HV).
      exists M, E. replace (E <=? 1024 - 53) with true by lia.
      split; [done|].
      replace (E - e) with (Z.succ (E - (e + 1))) by lia.
      rewrite Z.pow_succ_r by lia.
      replace (Zpos M * (2 * 2 ^ (E - (e + 1)))) with (2 * m1) by lia.
      split; [lia|]. split; [lia|]. split; [left; lia|]. intros; lia.
Qed.

Lemma SFdiv_core_binary_ints (pa pb : positive) :
  Zpos (digits2_pos pa) <= 53 -> Zpos (digits2_pos pb) <= 53 ->
  let t := 53 - Zpos (digits2_pos pa) + Zpos (digits2_pos pb) in
  SFdiv_core_binary 53 1024 (Zpos pa) 0 (Zpos pb) 0 =
    ((Zpos pa * 2 ^ t) / Zpos pb, - t,
     new_location (Zpos pb) ((Zpos pa * 2 ^ t) mod Zpos pb)).
Proof.
  intros Ha Hb t. unfold SFdiv_core_binary, fexp, emin. cbn [Zdigits2].
  replace (Z.min (Z.max (Zpos (digits2_pos pa) + 0 - (Zpos (digits2_pos pb) + 0) - 53)
                        (3 - 1024 - 53)) (0 - 0)) with (- t) by (subst t; lia).
  replace (0 - 0 - - t) with t by lia.
  assert (Ht : 0 < t) by (subst t; lia).
  destruct t as [|pt|pt] eqn:Et; try lia.
  rewrite Z.shiftl_mul_pow2 by lia.
  unfold Z.div, Z.modulo.
  destruct (Z.div_eucl (Zpos pa * 2 ^ Zpos pt) (Zpos pb)) as [q r]. reflexivity.
Qed.

(** Reading a float off its scaled mantissa. *)
Lemma ceil_scaled (M : positive) (E t : Z) :
  0 <= t -> - t <= E ->
  (if 0 <=? E then Zpos M * 2 ^ E else - (- Zpos M / 2 ^ (- E))) =
  - (- (Zpos M * 2 ^ (E + t)) / 2 ^ t).
Proof.
  intros Ht HE. destruct (Z.leb_spec 0 E) as [H0|H0].
  - rewrite Z.pow_add_r by lia.
    replace (- (Zpos M * (2 ^ E * 2 ^ t))) with ((- (Zpos M * 2 ^ E)) * 2 ^ t) by ring.
    rewrite Z.div_mul by (apply Z.pow_nonzero; lia). ring.
  - assert (Hsplit : 2 ^ t = 2 ^ (E + t) * 2 ^ (- E)).
    { rewrite <- Z.pow_add_r by lia. f_equal. lia. }
    rewrite Hsplit.
    replace (- (Zpos M * 2 ^ (E + t))) with (- Zpos M * 2 ^ (E + t)) by ring.
    rewrite (Z.mul_comm (2 ^ (E + t)) (2 ^ (- E))).
    rewrite Z.div_mul_cancel_r; [done| |]; apply Z.pow_nonzero; lia.
Qed.

(** The arithmetic heart: a value within one unit of the scaled
    quotient has the ceiling of the exact quotient. *)
Lemma ceil_of_rounded_quotient (a b T V : Z) :
  0 <= a -> 0 < b -> b < T -> Z.even T = true ->
  let q := (a * T) / b in
  let r := (a * T) mod b in
  V <= q + 1 ->
  (q <= V \/ (V = q - 1 /\ r = 0 /\ Z.odd q = true)) ->
  (r = 0 -> Z.even q = true -> V = q) ->
  - (- V / T) = ceil_div a b.
Proof.
  intros Ha Hb HT Hev q r Hup Hlo Hex.
  assert (HT2 : exists T', T = 2 * T') by (apply Z.even_spec; done).
  destruct HT2 as [T' ->].
  set (k := a / b). set (ρ := a mod b).
  assert (Hab : a = b * k + ρ) by (apply Z.div_mod; lia).
  assert (Hρ : 0 <= ρ < b) by (apply Z.mod_pos_bound; lia).
  assert (Hqr : a * (2 * T') = b * q + r) by (apply Z.div_mod; lia).
  assert (Hr : 0 <= r < b) by (apply Z.mod_pos_bound; lia).
  assert (Hk : 0 <= k) by (apply Z.div_pos; lia).
  destruct (decide (ρ = 0)) as [Hz|Hnz].
  - (* b divides a *)
    assert (Hq : q = k * (2 * T')).
    { symmetry. apply (Z.div_unique _ _ _ 0); [lia|nia]. }
    assert (Hr0 : r = 0) by nia.
    assert (HV : V = q).
    { apply Hex; [done|]. rewrite Hq.
      replace (k * (2 * T')) with (2 * (k * T')) by ring.
      apply Z.even_spec. eexists; done. }
    rewrite HV, Hq.
    replace (- (k * (2 * T'))) with ((- k) * (2 * T')) by ring.
    rewrite Z.div_mul by lia.
    unfold ceil_div. replace (- - k) with k by lia.
    apply (Z.div_unique _ _ _ (b - 1)); [lia|nia].
  - (* a proper fraction remains *)
    set (q' := (ρ * (2 * T')) / b).
    assert (Hq'r : ρ * (2 * T') = b * q' + (ρ * (2 * T')) mod b)
      by (apply Z.div_mod; lia).
    assert (Hr' : 0 <= (ρ * (2 * T')) mod b < b) by (apply Z.mod_pos_bound; lia).
    assert (Hq : q = k * (2 * T') + q').
    { symmetry. apply (Z.div_unique _ _ _ ((ρ * (2 * T')) mod b)); [lia|nia]. }
    assert (Hrr : r = (ρ * (2 * T')) mod b) by nia.
    assert (Hq'1 : 1 <= q') by (apply Z.div_le_lower_bound; nia).
    assert (Hq'2 : q' <= 2 * T' - 1).
    { assert (q' < 2 * T'); [|lia]. apply Z.div_lt_upper_bound; nia. }
    assert (HVlo : k * (2 * T') < V).
    { destruct Hlo as [Hlo|(HV & Hr0 & _)]; [lia|].
      assert (q' <> 1) by nia. lia. }
    assert (HVhi : V <= (k + 1) * (2 * T')) by nia.
    assert (HVdiv : - V / (2 * T') = - (k + 1)).
    { symmetry. apply (Z.div_unique _ _ _ ((k + 1) * (2 * T') - V)); [lia|nia]. }
    rewrite HVdiv. unfold ceil_div.
    replace (- - (k + 1)) with (k + 1) by lia.
    apply (Z.div_unique _ _ _ (ρ - 1)); [lia|nia].
Qed.

(** On collections that a binary64 can count, the float computation of
    [math.ceil(total_count / limit)] is the exact ceiling. *)
Lemma total_pages_exact (a b : Z) :
  0 <= a < 2 ^ 53 -> 0 < b < 2 ^ 53 ->
  total_pages_of a b = Returns (ceil_div a b).
Proof.
  intros Ha Hb. unfold total_pages_of, PyFloat.truediv.
  destruct (Z.eqb_spec b 0) as [|_]; [lia|].
  destruct b as [|pb|pb]; try lia.
  destruct a as [|pa|pa]; try lia.
  - cbn. unfold ceil_div. rewrite Z.div_small by lia. done.
  - cbn [PyFloat.of_int SFdiv xorb].
    assert (Hda : Zpos (digits2_pos pa) <= 53) by (apply digits2_pos_le; lia).
    assert (Hdb : Zpos (digits2_pos pb) <= 53) by (apply digits2_pos_le; lia).
    unfold PyFloat.prec, PyFloat.emax.
    rewrite SFdiv_core_binary_ints by done.
    set (da := Zpos (digits2_pos pa)) in *. set (db := Zpos (digits2_pos pb)) in *.
    set (t := 53 - da + db).
    assert (Hda1 : 1 <= da) by (subst da; lia).
    assert (Hdb1 : 1 <= db) by (subst db; lia).
    destruct (digits2_pos_bounds pa) as [Halo Hahi].
    destruct (digits2_pos_bounds pb) as [Hblo Hbhi].
    fold da in Halo, Hahi. fold db in Hblo, Hbhi.
    (* powers of two in terms of three atoms *)
    assert (Hpa : 2 ^ da = 2 * 2 ^ (da - 1)).
    { rewrite <- Z.pow_succ_r by lia. f_equal. lia. }
    assert (Hpb : 2 ^ db = 2 * 2 ^ (db - 1)).
    { rewrite <- Z.pow_succ_r by lia. f_equal. lia. }
    assert (Hpt : 2 ^ t = 2 ^ (53 - da) * 2 ^ db).
    { rewrite <- Z.pow_add_r by lia. done. }
    assert (H52 : 2 ^ (da - 1) * 2 ^ (53 - da) = 2 ^ 52).
    { rewrite <- Z.pow_add_r by lia. f_equal. lia. }
    assert (HX : 1 <= 2 ^ (53 - da)).
    { change 1 with (2 ^ 0). apply Z.pow_le_mono_r; lia. }
    assert (HY : 1 <= 2 ^ (db - 1)).
    { change 1 with (2 ^ 0). apply Z.pow_le_mono_r; lia. }
    assert (HP : 1 <= 2 ^ (da - 1)).
    { change 1 with (2 ^ 0). apply Z.pow_le_mono_r; lia. }
    set (X := 2 ^ (53 - da)) in *. set (Y := 2 ^ (db - 1)) in *.
    set (P := 2 ^ (da - 1)) in *.
    set (T := 2 ^ t) in *.
    set (q := (Zpos pa * T) / Zpos pb).
    set (r := (Zpos pa * T) mod Zpos pb).
    assert (Hq : 2 ^ 52 <= q < 2 ^ 54).
    { split.
      - apply Z.div_le_lower_bound; [lia|]. rewrite Hpt, Hpb, <- H52. nia.
      - apply Z.div_lt_upper_bound; [lia|]. rewrite Hpt, Hpb.
        replace (2 ^ 54) with (4 * 2 ^ 52) by lia. rewrite <- H52. nia. }
    assert (Hr : 0 <= r < Zpos pb) by (apply Z.mod_pos_bound; lia).
    destruct (binary_round_aux_value q (- t) (new_location (Zpos pb) r) Hq)
      as (M & E & -> & HE & Hup & Hlo & Hex); [subst t; lia|].
    cbn [mbind outcome_bind PyFloat.ceil].
    f_equal. rewrite (ceil_scaled M E t) by (subst t; lia).
    replace (E + t) with (E - - t) by lia.
    fold T.
    apply ceil_of_rounded_quotient; try lia.
    + rewrite Hpt, Hpb. nia.
    + subst T. rewrite Hpt, Hpb.
      replace (X * (2 * Y)) with (2 * (X * Y)) by ring.
      apply Z.even_spec. eexists; done.
    + fold q r. destruct Hlo as [Hlo|(HV & Hl & Hodd)]; [left; done|right].
      split; [done|]. split; [|done].
      rewrite new_location_spec in Hl by lia.
      destruct (Z.eqb_spec r 0); [done|discriminate].
    + fold q r. intros Hr0 Hev. apply Hex; [|done].
      rewrite new_location_spec by lia. rewrite Hr0. done.
Qed.

End FloatCeiling.

(** ** The store's order on values *)


Lemma value_leb_total (v w : Value) : value_leb v w = true \/ value_leb w v = true.
Proof.
  destruct v, w; cbn; try (left; done); try (right; done);
    try apply String.leb_total.
  lia.
Qed.

#[global] Instance ascending_total field : Total (ascending field).
Proof. intros a b. apply value_leb_total. Qed.

#[global] Instance descending_total field : Total (descending field).
Proof. intros a b. apply value_leb_total. Qed.


(** ** Aggregation: groups and their sizes *)

Section Groups.

Lemma size_in_bump (k k' : Value) (groups : list (Value * Z)) :
  size_in (bump k groups) k' =
  size_in groups k' + (if decide (k' = k) then 1 else 0).
Proof.
  induction groups as [|[k1 n] rest IH]; cbn [bump size_in].
  - destruct (decide (k' = k)); lia.
  - destruct (decide (k = k1)) as [->|Hne]; cbn [size_in].
    + destruct (decide (k' = k1)); lia.
    + destruct (decide (k' = k1)) as [->|]; [|done].
      destruct (decide (k1 = k)); [congruence|lia].
Qed.

Lemma bump_keys (k : Value) (groups : list (Value * Z)) :
  groups.*1 ⊆ (bump k groups).*1 /\ (bump k groups).*1 ⊆ k :: groups.*1.
Proof.
  induction groups as [|[k1 n] rest [IH1 IH2]]; cbn [bump].
  - split; [apply list_subseteq_nil|done].
  - destruct (decide (k = k1)) as [->|Hne]; cbn [fmap list_fmap fst].
    + split; [done|intros x Hx; by apply list_elem_of_further].
    + split.
      * intros x Hx. apply elem_of_cons in Hx as [->|Hx];
          [apply list_elem_of_here|apply list_elem_of_further, IH1, Hx].
      * intros x Hx. apply elem_of_cons in Hx as [->|Hx].
        -- apply list_elem_of_further, list_elem_of_here.
        -- apply IH2, elem_of_cons in Hx as [->|Hx];
             [apply list_elem_of_here|by do 2 apply list_elem_of_further].
Qed.

Lemma bump_NoDup (k : Value) (groups : list (Value * Z)) :
  NoDup groups.*1 -> NoDup (bump k groups).*1.
Proof.
  induction groups as [|[k1 n] rest IH]; cbn [bump]; intros Hnd.
  - cbn. apply NoDup_singleton.
  - destruct (decide (k = k1)) as [->|Hne]; [done|].
    cbn in *. apply NoDup_cons in Hnd as [Hnotin Hnd].
    apply NoDup_cons. split; [|by apply IH].
    intros Hin. apply (proj2 (bump_keys k rest)), elem_of_cons in Hin as [->|Hin]; done.
Qed.

Lemma size_in_elem (groups : list (Value * Z)) (k : Value) (n : Z) :
  NoDup groups.*1 -> (k, n) ∈ groups -> size_in groups k = n.
Proof.
  induction groups as [|[k1 n1] rest IH]; intros Hnd Hin; [by apply elem_of_nil in Hin|].
  cbn in Hnd. apply NoDup_cons in Hnd as [Hnotin Hnd].
  cbn [size_in]. apply elem_of_cons in Hin as [[= <- <-]|Hin].
  - by rewrite decide_True.
  - rewrite decide_False; [by apply IH|].
    intros ->. apply Hnotin. apply list_elem_of_fmap. by exists (k1, n).
Qed.

Lemma notes_in_snoc (k : Value) (coll : Collection) (doc : Doc) :
  notes_in k (coll ++ [doc]) =
  notes_in k coll + (if decide (k = field_or_null "folder" doc) then 1 else 0).
Proof.
  unfold notes_in. rewrite List.filter_app, length_app, Nat2Z.inj_add. f_equal.
  cbn. destruct (decide (k = field_or_null "folder" doc)) as [->|Hne].
  - by rewrite bool_decide_eq_true_2.
  - by rewrite bool_decide_eq_false_2.
Qed.

(** Folding [bump] over the collection keeps the keys distinct and the
    sizes equal to the number of notes seen per key. *)
Lemma foldl_bump_sizes (seen coll : Collection) (groups : list (Value * Z)) :
  NoDup groups.*1 ->
  (forall k, size_in groups k = notes_in k seen) ->
  let final :=
    foldl (fun groups doc => bump (field_or_null "folder" doc) groups) groups coll in
  NoDup final.*1 /\ (forall k, size_in final k = notes_in k (seen ++ coll)).
Proof.
  revert seen groups. induction coll as [|doc coll IH]; intros seen groups Hnd Hsz.
  - cbn. by rewrite app_nil_r.
  - cbn [foldl].
    replace (seen ++ doc :: coll)%list with ((seen ++ [doc]) ++ coll)%list
      by (by rewrite <- app_assoc).
    apply IH; [by apply bump_NoDup|].
    intros k. by rewrite size_in_bump, notes_in_snoc, Hsz.
Qed.

Lemma group_sizes_spec (coll : Collection) :
  NoDup (group_sizes "folder" coll).*1 /\
  (forall k n, (k, n) ∈ group_sizes "folder" coll -> n = notes_in k coll).
Proof.
  destruct (foldl_bump_sizes [] coll []) as [Hnd Hsz]; [constructor|done|].
  split; [done|]. intros k n Hin.
  pose proof (Hsz k) as Hk. cbn [app] in Hk.
  rewrite <- Hk. symmetry. by apply size_in_elem.
Qed.

Lemma bump_total (k : Value) (groups : list (Value * Z)) :
  sizes_total (bump k groups) = sizes_total groups + 1.
Proof.
  unfold sizes_total.
  induction groups as [|[k' n] groups IH]; cbn; [lia|].
  destruct (decide (k = k')); cbn in *; lia.
Qed.

Lemma foldl_bump_total (field : string) (coll : list Doc) (groups : list (Value * Z)) :
  sizes_total (foldl (fun groups doc => bump (field_or_null field doc) groups) groups coll)
  = sizes_total groups + Z.of_nat (length coll).
Proof.
  revert groups. induction coll as [|d coll IH]; intros groups; cbn [foldl length].
  - lia.
  - rewrite IH, bump_total. lia.
Qed.

Lemma group_sizes_total (field : string) (coll : list Doc) :
  sizes_total (group_sizes field coll) = Z.of_nat (length coll).
Proof. unfold group_sizes. rewrite foldl_bump_total. cbn. lia. Qed.

End Groups.

(** ** Aggregation: rows *)

Section Rows.

Lemma total_count_of_Permutation (l k : list Doc) :
  l ≡ₚ k -> total_count_of l = total_count_of k.
Proof. unfold total_count_of. induction 1; cbn in *; lia. Qed.

Lemma project_name_count_lookup_count (d : Doc) :
  project_name_count d !! "note_count" = d !! "note_count".
Proof.
  unfold project_name_count. apply option_eq; intros v.
  rewrite map_lookup_filter_Some. cbn.
  destruct (d !! "_id"); [rewrite lookup_insert_ne by done|]; tauto.
Qed.

Lemma project_name_count_lookup_name (d : Doc) (v : Value) :
  d !! "_id" = Some v -> project_name_count d !! "name" = Some v.
Proof.
  intros Hid. unfold project_name_count. rewrite Hid.
  apply map_lookup_filter_Some. split; [apply lookup_insert_eq|by left].
Qed.

Lemma row_count_project (d : Doc) : row_count (project_name_count d) = row_count d.
Proof. unfold row_count. by rewrite project_name_count_lookup_count. Qed.

Lemma row_count_group (k : Value) (n : Z) :
  row_count ({[ "_id" := k; "note_count" := VInt n ]} : Doc) = n.
Proof.
  unfold row_count. rewrite lookup_insert_ne by done.
  by rewrite lookup_singleton_eq.
Qed.

Lemma projected_group_name (g : Value * Z) :
  field_or_null "name"
    (project_name_count ({[ "_id" := g.1; "note_count" := VInt g.2 ]} : Doc)) = g.1.
Proof.
  unfold field_or_null.
  by rewrite (project_name_count_lookup_name _ g.1) by apply lookup_insert_eq.
Qed.

Lemma projected_group_count (g : Value * Z) :
  row_count
    (project_name_count ({[ "_id" := g.1; "note_count" := VInt g.2 ]} : Doc)) = g.2.
Proof. by rewrite row_count_project, row_count_group. Qed.

Lemma total_count_projected_groups (groups : list (Value * Z)) :
  total_count_of
    (map (fun g : Value * Z =>
            project_name_count ({[ "_id" := g.1; "note_count" := VInt g.2 ]} : Doc))
         groups) = sizes_total groups.
Proof.
  unfold total_count_of, sizes_total.
  induction groups as [|g gs IH]; [done|].
  cbn [map foldr]. by rewrite IH, projected_group_count.
Qed.

(** The rows of the folder listing are the projected groups, reordered. *)
Lemma get_folders_rows (coll : Collection) :
  exists rows : list Doc,
    get_folders coll = Returns {| data := rows |} /\
    rows ≡ₚ map (fun g : Value * Z =>
                   project_name_count ({[ "_id" := g.1; "note_count" := VInt g.2 ]} : Doc))
                (group_sizes "folder" coll).
Proof.
  eexists. split; [reflexivity|].
  unfold sort_desc, group_count.
  etrans; [apply Permutation_map, merge_sort_Permutation|].
  by rewrite map_map.
Qed.





End Rows.

(** ** Patterns without metacharacters *)

Section LiteralPatterns.

Lemma ordinary_not_quantifier (c : ascii) :
  classify c = Ordinary -> quant_of c = None.
Proof.
  unfold classify, quant_of.
  destruct (c =? ".")%char; [done|].
  destruct (c =? backslash)%char; [done|].
  destruct (c =? "*")%char; [done|].
  destruct (c =? "+")%char; [done|].
  destruct (c =? "?")%char; [done|]. done.
Qed.

Lemma parse_ordinary (cs : list ascii) (fuel : nat) :
  Forall (fun c => classify c = Ordinary) cs -> (length cs <= fuel)%nat ->
  parse fuel cs = Some (Returns (literal_pieces cs)).
Proof.
  revert fuel. induction cs as [|c rest IH]; intros fuel Hord Hfuel.
  - destruct fuel; reflexivity.
  - destruct fuel as [|fuel]; [cbn in Hfuel; lia|].
    apply Forall_cons in Hord as [Hc Hrest].
    cbn [parse]. rewrite Hc.
    destruct rest as [|c' rest'].
    + cbn. destruct fuel; reflexivity.
    + unfold take_quant.
      rewrite (ordinary_not_quantifier c') by (by apply Forall_cons in Hrest as [? _]).
      rewrite IH by (done || (cbn in *; lia)). reflexivity.
Qed.

(** The fuel given by [regex_compile] is enough: a plain pattern
    compiles, to its own characters. *)
Lemma regex_compile_plain (q : string) :
  plain q -> regex_compile q = Some (Returns (literal_pieces (chars q))).
Proof.
  intros Hq. unfold regex_compile. apply parse_ordinary; [done|].
  unfold chars. clear Hq. induction q; cbn; lia.
Qed.

Lemma match_here_literal (q s : list ascii) :
  match_here (literal_pieces q) s = true <->
  exists post, map lower s = (map lower q ++ post)%list.
Proof.
  revert s. induction q as [|x q IH]; intros s; cbn [literal_pieces map match_here].
  - split; [intros _; by eexists|done].
  - fold (literal_pieces q). destruct s as [|c s]; cbn [map app].
    + split; [done|intros [post Hp]; done].
    + rewrite andb_true_iff, IH. cbn [atom_matches].
      rewrite Ascii.eqb_eq. split.
      * intros [-> [post ->]]. by exists post.
      * intros [post [= -> ->]]. split; [done|by exists post].
Qed.

Lemma regex_search_literal (q s : list ascii) :
  regex_search (literal_pieces q) s = true <->
  exists pre post, map lower s = (pre ++ map lower q ++ post)%list.
Proof.
  induction s as [|c s IH]; cbn [regex_search map].
  - rewrite orb_false_r, match_here_literal. split.
    + intros [post Hp]. by exists [], post.
    + intros (pre & post & Hp). symmetry in Hp.
      apply app_eq_nil in Hp as [-> Hp]. by exists post.
  - rewrite orb_true_iff, match_here_literal, IH. split.
    + intros [[post Hp]|(pre & post & Hp)].
      * by exists [], post.
      * exists (lower c :: pre), post. cbn. by rewrite Hp.
    + intros ([|p pre] & post & Hp).
      * left. by exists post.
      * right. injection Hp as _ Hp. by exists pre, post.
Qed.



Lemma serialize_doc_lookup_other (doc : Doc) (k : string) :
  k <> "_id" -> k <> "id" -> serialize_doc doc !! k = doc !! k.
Proof.
  intros H1 H2. unfold serialize_doc. destruct (doc !! "_id"); [|done].
  rewrite lookup_delete_ne by done. by rewrite lookup_insert_ne.
Qed.




End LiteralPatterns.

(** ** The listing handlers on valid parameters *)

Section Listing.

Lemma find_match_all (coll : Collection) : find match_all coll = coll.
Proof. unfold find, match_all. induction coll; cbn; congruence. Qed.

Lemma ceil_div_lt (page limit total : Z) :
  0 < limit -> (page < ceil_div total limit <-> page * limit < total).
Proof.
  intros Hl. unfold ceil_div.
  pose proof (Z.div_mod (total + limit - 1) limit ltac:(lia)) as Hdm.
  pose proof (Z.mod_pos_bound (total + limit - 1) limit Hl) as Hm.
  split; intros H; nia.
Qed.

Lemma Query_int_valid (dflt lo v : Z) (hi : option Z) :
  lo <= v -> from_option (fun h => v <= h) True hi ->
  Query_int dflt (Some lo) hi (Some v) = Returns v.
Proof.
  intros Hlo Hhi. unfold Query_int. cbn.
  destruct hi as [h|]; cbn in *.
  - replace (lo <=? v) with true by lia. replace (v <=? h) with true by lia. done.
  - replace (lo <=? v) with true by lia. done.
Qed.

Lemma paginate_window (page limit : Z) (docs : list Doc) :
  1 <= page -> 1 <= limit ->
  cursor_limit limit <$> cursor_skip ((page - 1) * limit) docs =
  Returns (take (Z.to_nat limit) (drop (Z.to_nat ((page - 1) * limit)) docs)).
Proof.
  intros Hp Hl. unfold cursor_skip, cursor_limit.
  replace ((page - 1) * limit <? 0) with false by nia.
  replace (limit =? 0) with false by lia.
  cbn. by rewrite Z.abs_eq by lia.
Qed.

Lemma get_notes_valid (page limit : Z) (coll : Collection) :
  1 <= page -> 1 <= limit <= 100 -> Z.of_nat (length coll) < 2 ^ 53 ->
  get_notes (Some page) (Some limit) coll =
    Returns (page_of "/notes/" None page limit coll).
Proof.
  intros Hp Hl Hn. unfold get_notes.
  rewrite !Query_int_valid by (cbn; lia). cbn [mbind outcome_bind].
  unfold count_documents. rewrite find_match_all.
  rewrite paginate_window by lia. cbn [mbind outcome_bind].
  rewrite total_pages_exact by lia. reflexivity.
Qed.

Lemma get_notes_by_folder_valid (folder_name : string) (page limit : Z) (coll : Collection) :
  1 <= page -> 1 <= limit <= 100 -> Z.of_nat (length coll) < 2 ^ 53 ->
  find (field_eq "folder" (VStr folder_name)) coll <> [] ->
  get_notes_by_folder folder_name (Some page) (Some limit) coll =
    Returns (page_of ("/notes/by-folder/" ++ folder_name) (Some folder_name)
               page limit (find (field_eq "folder" (VStr folder_name)) coll)).
Proof.
  intros Hp Hl Hn Hne. unfold get_notes_by_folder.
  rewrite !Query_int_valid by (cbn; lia). cbn [mbind outcome_bind].
  unfold count_documents.
  assert (Hlen : (length (find (field_eq "folder" (VStr folder_name)) coll)
                  <= length coll)%nat) by apply filter_length_le.
  set (matching := find (field_eq "folder" (VStr folder_name)) coll) in *.
  assert (Hpos : Z.of_nat (length matching) <> 0).
  { destruct matching; [done|cbn [length]; lia]. }
  destruct (Z.eqb_spec (Z.of_nat (length matching)) 0) as [|_]; [done|].
  rewrite paginate_window by lia. cbn [mbind outcome_bind].
  rewrite total_pages_exact by lia.
  reflexivity.
Qed.

(** With notes in the folder, get-folder-with-notes returns them all. *)
Lemma get_folder_with_notes_found (folder_name : string) (coll : Collection) :
  find (field_eq "folder" (VStr folder_name)) coll <> [] ->
  get_folder_with_notes folder_name coll =
    Returns {| data :=
      {| folder_name := folder_name;
         note_count :=
           Z.of_nat (length (find (field_eq "folder" (VStr folder_name)) coll));
         notes :=
           serialize_docs (find (field_eq "folder" (VStr folder_name)) coll) |} |}.
Proof.
  intros Hne. unfold get_folder_with_notes.
  destruct (find (field_eq "folder" (VStr folder_name)) coll); done.
Qed.


End Listing.

(** ** Identifiers in responses *)

Section Identifiers.




Lemma find_subseteq (query : Filter) (coll : Collection) : find query coll ⊆ coll.
Proof.
  intros doc Hin. apply list_elem_of_In, filter_In in Hin as [Hin _].
  by apply list_elem_of_In.
Qed.




End Identifiers.

(** * The specification, claim by claim *)

(** ** Scenarios of the specification *)

Example folders_scenario :
  get_folders sample_notes =
    Returns {| data := [ ({[ "name" := VStr "A"; "note_count" := VInt 3 ]} : Doc);
                         ({[ "name" := VStr "B"; "note_count" := VInt 2 ]} : Doc) ] |}.
Proof. vm_compute. reflexivity. Qed.

Example first_page_scenario :
  exists r : Page,
    get_notes (Some 1) (Some 2) sample_notes = Returns r /\
    length (results r) = 2%nat /\
    next r = Some "/notes/?page=2&limit=2" /\
    previous r = None.
Proof. eexists. split; [vm_compute; reflexivity|]. repeat split. Qed.

Example hello_scenario : returned_by_search "hello" sample_notes hello_note.
Proof.
  eexists. split; [vm_compute; reflexivity|].
  cbn [data]. apply list_elem_of_here.
Qed.

(** Past [2 ^ 53] notes the quotient is rounded before [math.ceil] sees
    it: this is why the pagination theorems bound the collection. *)
Example total_pages_rounds : total_pages_of (2 ^ 53 + 1) 1 = Returns (2 ^ 53).
Proof. vm_compute. reflexivity. Qed.

(** ** Random note *)

(** C1 (defect in the code).  The specification promises Not-Found (404)
    for the random-note operation on an empty collection.  The handler
    raises [HTTPException 404] inside its [try] block, and the
    [except Exception] clause catches it and raises [HTTPException 500]
    in its place: the answer is 500, whatever the store drew. *)
Theorem get_random_note_empty (draw : nat) :
  (exists detail : string,
     get_random_note draw [] = Raises (HTTPException 500 detail)) /\
  status (get_random_note draw []) = 500.
Proof.
  unfold get_random_note, sample_one. rewrite drop_nil. cbn.
  split; [by eexists|done].
Qed.

(** ** Folders without notes *)

(** C2 (defect in the code).  The specification promises Not-Found (404)
    from get-folder-with-notes and from the paginated by-folder listing
    when no note has the folder.  Both handlers raise [HTTPException 404]
    inside their [try] block and both answer 500, for the reason given
    under C1. *)
Theorem folder_without_notes_status (folder_name : string) (page limit : Z)
    (coll : Collection) :
  1 <= page -> 1 <= limit <= 100 ->
  count_documents (field_eq "folder" (VStr folder_name)) coll = 0 ->
  status (get_folder_with_notes folder_name coll) = 500 /\
  status (get_notes_by_folder folder_name (Some page) (Some limit) coll) = 500.
Proof.
  intros Hp Hl Hzero. split.
  - unfold get_folder_with_notes. unfold count_documents in Hzero.
    destruct (find _ coll); [done|cbn [length] in Hzero; lia].
  - unfold get_notes_by_folder, Query_int. cbn.
    replace (1 <=? page) with true by lia.
    replace (1 <=? limit) with true by lia.
    replace (limit <=? 100) with true by lia.
    cbn. rewrite Hzero. done.
Qed.

Lemma folder_without_notes_status_witness :
  1 <= 1 /\ 1 <= 50 <= 100 /\
  count_documents (field_eq "folder" (VStr "Z")) sample_notes = 0 /\
  status (get_folder_with_notes "Z" sample_notes) = 500 /\
  status (get_notes_by_folder "Z" (Some 1) (Some 50) sample_notes) = 500.
Proof.
  split; [lia|]. split; [lia|]. split; [vm_compute; reflexivity|].
  apply (folder_without_notes_status "Z" 1 50 sample_notes);
    [lia|lia|vm_compute; reflexivity].
Defined.

(** ** Search *)





(** ** Pagination *)







(** ** Folders *)

(** C6.  For every collection, list-folders returns rows whose
    [note_count]s sum to the number of notes in the collection; the rows
    have distinct names and each counts the notes that carry its name as
    folder value, so every note is counted in exactly one row. *)
Theorem get_folders_counts (coll : Collection) :
  exists rows : list Doc,
    get_folders coll = Returns {| data := rows |} /\
    total_count_of rows = Z.of_nat (length coll) /\
    NoDup (map (field_or_null "name") rows) /\
    Forall (fun row => row_count row = notes_in (field_or_null "name" row) coll) rows.
Proof.
  destruct (get_folders_rows coll) as (rows & Hret & Hperm).
  destruct (group_sizes_spec coll) as [Hnd Hsz].
  exists rows. split; [done|]. split; [|split].
  - rewrite (total_count_of_Permutation _ _ Hperm).
    rewrite total_count_projected_groups. apply group_sizes_total.
  - assert (Hnames : map (field_or_null "name") rows
                      ≡ₚ (group_sizes "folder" coll).*1).
    { etrans; [apply Permutation_map, Hperm|]. rewrite map_map.
      erewrite map_ext; [reflexivity|]. intros g. apply projected_group_name. }
    by rewrite Hnames.
  - rewrite Hperm. apply Forall_forall. intros row Hin.
    apply list_elem_of_In, in_map_iff in Hin as ([k n] & <- & Hg).
    rewrite projected_group_name, projected_group_count. cbn.
    apply Hsz. by apply list_elem_of_In.
Qed.



(** ** Identifiers *)



(** * Further properties of the handlers *)

(** ** serialize_doc *)

(** X1.  Serializing twice is serializing once: a serialized note has no
    [_id] left to move. *)
Theorem serialize_doc_idempotent (doc : Doc) :
  serialize_doc (serialize_doc doc) = serialize_doc doc.
Proof.
  unfold serialize_doc at 1.
  assert (Hnone : serialize_doc doc !! "_id" = None).
  { unfold serialize_doc. destruct (doc !! "_id") eqn:Hid; [|done].
    apply lookup_delete_eq. }
  by rewrite Hnone.
Qed.

(** X2.  Whatever the document, its serialization has no [_id], keeps
    every field other than [_id] and [id] as it was, and has exactly the
    keys of the document with [_id] replaced by [id] (a stored field
    named [id] is overwritten when [_id] is present). *)
Theorem serialize_doc_fields (doc : Doc) :
  serialize_doc doc !! "_id" = None /\
  (forall k, k <> "_id" -> k <> "id" -> serialize_doc doc !! k = doc !! k) /\
  (forall v, doc !! "_id" = Some v ->
     serialize_doc doc !! "id" = Some (VStr (py_str v)) /\
     dom (serialize_doc doc) = {["id"]} ∪ (dom doc ∖ {["_id"]})) /\
  (doc !! "_id" = None -> serialize_doc doc = doc).
Proof.
  unfold serialize_doc. destruct (doc !! "_id") as [v|] eqn:Hid.
  - split; [apply lookup_delete_eq|]. split.
    + intros k H1 H2. rewrite lookup_delete_ne by done. by rewrite lookup_insert_ne.
    + split; [|done]. intros w [= <-]. split.
      * rewrite lookup_delete_ne by done. apply lookup_insert_eq.
      * rewrite dom_delete_L, dom_insert_L. apply set_eq. intros x.
        rewrite elem_of_difference, !elem_of_union, elem_of_difference,
          !elem_of_singleton.
        split; [tauto|]. intros [->|[? ?]]; [split; [by left|done]|tauto].
  - split; [done|]. split; [done|]. split; [done|done].
Qed.

(** ** Parameter validation *)


Lemma Query_int_out_of_range (dflt v : Z) (ge le : option Z) :
  from_option (fun lo => v < lo) False ge \/ from_option (fun hi => hi < v) False le ->
  Query_int dflt ge le (Some v) = Raises RequestValidationError.
Proof.
  unfold Query_int. cbn [default]. intros [H|H].
  - destruct ge as [lo|]; [|done]. cbn in *.
    replace (lo <=? v) with false by lia. done.
  - destruct le as [hi|]; [|done]. cbn in *.
    replace (v <=? hi) with false by lia. by rewrite andb_false_r.
Qed.

(** X3.  A page below 1, or a limit outside 1..100, is refused by both
    paginated listings with a validation error (422), whatever the
    collection holds: the store is not consulted and the handler's
    catch-all does not apply. *)
Theorem paginated_listing_rejects (page limit : Z) (folder_name : string)
    (coll : Collection) :
  page < 1 \/ limit < 1 \/ 100 < limit ->
  get_notes (Some page) (Some limit) coll = Raises RequestValidationError /\
  get_notes_by_folder folder_name (Some page) (Some limit) coll
    = Raises RequestValidationError /\
  status (get_notes (Some page) (Some limit) coll) = 422.
Proof.
  intros Hbad.
  assert (Hg : get_notes (Some page) (Some limit) coll = Raises RequestValidationError).
  { unfold get_notes. destruct (Z_lt_le_dec page 1) as [Hp|Hp].
    - by rewrite (Query_int_out_of_range 1 page) by (left; done).
    - rewrite (Query_int_valid 1 1 page None) by (cbn; first [lia|exact I]).
      cbn [mbind outcome_bind].
      rewrite (Query_int_out_of_range 50 limit); [done|]. cbn. lia. }
  split; [done|]. split; [|by rewrite Hg].
  unfold get_notes_by_folder. destruct (Z_lt_le_dec page 1) as [Hp|Hp].
  - by rewrite (Query_int_out_of_range 1 page) by (left; done).
  - rewrite (Query_int_valid 1 1 page None) by (cbn; first [lia|exact I]).
      cbn [mbind outcome_bind].
    rewrite (Query_int_out_of_range 50 limit); [done|]. cbn. lia.
Qed.

Lemma paginated_listing_rejects_witness :
  (0 < 1 \/ 2 < 1 \/ 100 < 2) /\
  get_notes (Some 0) (Some 2) sample_notes = Raises RequestValidationError /\
  get_notes_by_folder "A" (Some 0) (Some 2) sample_notes
    = Raises RequestValidationError /\
  status (get_notes (Some 0) (Some 2) sample_notes) = 422.
Proof.
  split; [left; lia|].
  apply (paginated_listing_rejects 0 2 "A" sample_notes). left. lia.
Defined.

(** X4.  A search without [q], or with an empty [q], is refused with a
    validation error (422) by search-notes and by search-folders,
    whatever the folder parameter and the collection. *)
Theorem search_requires_query (q folder : option string) (coll : Collection) :
  q = None \/ q = Some "" ->
  search_notes q folder coll = Some (Raises RequestValidationError) /\
  search_folders q coll = Some (Raises RequestValidationError).
Proof. intros [->| ->]; split; reflexivity. Qed.

Lemma search_requires_query_witness :
  (Some "" = None \/ Some "" = Some "") /\
  search_notes (Some "") (Some "A") sample_notes = Some (Raises RequestValidationError) /\
  search_folders (Some "") sample_notes = Some (Raises RequestValidationError).
Proof.
  split; [by right|].
  apply (search_requires_query (Some "") (Some "A") sample_notes). by right.
Defined.

(** ** Status codes *)






(** ** Pagination arithmetic *)

(** X6.  For a collection of fewer than [2 ^ 53] notes and a limit
    between 1 and 100, [math.ceil(total_count / limit)] evaluates without
    error to the least number of pages of [limit] notes that hold
    [total_count] notes. *)
Theorem total_pages_least_cover (total_count limit : Z) :
  0 <= total_count < 2 ^ 53 -> 1 <= limit <= 100 ->
  exists n : Z,
    total_pages_of total_count limit = Returns n /\
    (n - 1) * limit < total_count <= n * limit.
Proof.
  intros Hc Hl. exists (ceil_div total_count limit).
  split; [apply total_pages_exact; lia|].
  unfold ceil_div.
  pose proof (Z.div_mod (total_count + limit - 1) limit ltac:(lia)) as Hdm.
  pose proof (Z.mod_pos_bound (total_count + limit - 1) limit ltac:(lia)) as Hm.
  nia.
Qed.

Lemma total_pages_least_cover_witness :
  0 <= 5 < 2 ^ 53 /\ 1 <= 2 <= 100 /\
  exists n : Z,
    total_pages_of 5 2 = Returns n /\ (n - 1) * 2 < 5 <= n * 2.
Proof.
  split; [lia|]. split; [lia|].
  apply (total_pages_least_cover 5 2); lia.
Defined.

(** ** Random note *)



(** ** Listing by folder *)

Lemma find_in_folder (folder_name : string) (coll : Collection) :
  Forall (in_folder folder_name) (find (field_eq "folder" (VStr folder_name)) coll).
Proof.
  apply Forall_forall. intros doc Hin.
  apply list_elem_of_In, filter_In in Hin as [_ Hm].
  unfold field_eq in Hm. by apply bool_decide_eq_true_1 in Hm.
Qed.

Lemma serialize_docs_in_folder (folder_name : string) (docs : list Doc) :
  Forall (in_folder folder_name) docs ->
  Forall (in_folder folder_name) (serialize_docs docs).
Proof.
  intros Hall. apply Forall_forall. intros note Hin.
  apply list_elem_of_In, in_map_iff in Hin as (doc & <- & Hdoc).
  unfold in_folder. rewrite serialize_doc_lookup_other by done.
  rewrite Forall_forall in Hall. by apply Hall, list_elem_of_In.
Qed.






(** ** Folder with notes *)

(** X10.  When at least one note has the folder, get-folder-with-notes
    succeeds: it echoes the name, returns the serialization of exactly
    the notes whose folder is [name], in collection order, and
    [note_count] is their number (the length of [notes], at least 1). *)
Theorem get_folder_with_notes_content (name : string) (coll : Collection) :
  find (field_eq "folder" (VStr name)) coll <> [] ->
  exists r : FolderNotes,
    get_folder_with_notes name coll = Returns {| data := r |} /\
    folder_name r = name /\
    notes r = serialize_docs (find (field_eq "folder" (VStr name)) coll) /\
    Forall (in_folder name) (notes r) /\
    note_count r = Z.of_nat (length (notes r)) /\
    1 <= note_count r /\
    (forall doc, doc ∈ coll -> in_folder name doc ->
       serialize_doc doc ∈ notes r).
Proof.
  intros Hne. eexists. split; [by apply get_folder_with_notes_found|].
  cbn [folder_name notes note_count].
  split; [done|]. split; [done|]. split; [|split; [|split]].
  - apply serialize_docs_in_folder, find_in_folder.
  - unfold serialize_docs. by rewrite length_map.
  - destruct (find _ coll); [done|cbn [length]; lia].
  - intros doc Hin Hf. apply list_elem_of_In, in_map, filter_In.
    split; [by apply list_elem_of_In|]. unfold field_eq. by apply bool_decide_eq_true_2.
Qed.

Lemma get_folder_with_notes_content_witness :
  find (field_eq "folder" (VStr "B")) sample_notes <> [] /\
  exists r : FolderNotes,
    get_folder_with_notes "B" sample_notes = Returns {| data := r |} /\
    note_count r = Z.of_nat (length (notes r)) /\
    Forall (in_folder "B") (notes r).
Proof.
  assert (Hne : find (field_eq "folder" (VStr "B")) sample_notes <> [])
    by (vm_compute; discriminate).
  split; [exact Hne|].
  destruct (get_folder_with_notes_content "B" sample_notes Hne)
    as (r & Hret & _ & _ & Hall & Hcount & _).
  exists r. split; [exact Hret|]. split; [exact Hcount|exact Hall].
Defined.

(** ** Links and pages *)



Lemma windows_concat (L : nat) (l : list Doc) (k : nat) :
  concat (map (fun i => take L (drop (i * L) l)) (seq 0 k)) = take (k * L) l.
Proof.
  induction k as [|k IH]; [done|].
  rewrite seq_S, map_app, concat_app, IH. cbn [map concat plus].
  rewrite app_nil_r, take_take_drop. f_equal. lia.
Qed.

(** X12.  For a limit between 1 and 100 on a collection of fewer than
    [2 ^ 53] notes, the pages 1 to [ceil (count / limit)] of list-notes
    all succeed and their results, put end to end, are the serialized
    collection: every note is on exactly one page, in collection order. *)
Theorem get_notes_pages_cover (limit : Z) (coll : Collection) :
  1 <= limit <= 100 -> Z.of_nat (length coll) < 2 ^ 53 ->
  exists rs : list Page,
    Forall2 (fun page r => get_notes (Some page) (Some limit) coll = Returns r)
      (pages_upto (ceil_div (Z.of_nat (length coll)) limit)) rs /\
    concat (map results rs) = serialize_docs coll.
Proof.
  intros Hl Hn.
  set (n := ceil_div (Z.of_nat (length coll)) limit).
  exists (map (fun page => page_of "/notes/" None page limit coll) (pages_upto n)).
  split.
  - apply Forall2_fmap_r, Forall_Forall2_diag, Forall_forall. intros page Hin.
    apply get_notes_valid; [|done|done].
    unfold pages_upto in Hin.
    apply list_elem_of_In, in_map_iff in Hin as (i & <- & _). lia.
  - unfold pages_upto. rewrite !map_map. cbn [page_of results].
    unfold serialize_docs.
    rewrite <- (map_map (fun i => take (Z.to_nat limit)
                           (drop (Z.to_nat ((Z.of_nat (S i) - 1) * limit)) coll))
                        (map serialize_doc)).
    rewrite <- concat_map. f_equal.
    erewrite map_ext;
      [rewrite (windows_concat (Z.to_nat limit) coll (Z.to_nat n))|].
    + apply take_ge.
      assert (0 <= n) by (apply Z.div_pos; lia).
      assert (Hcover : Z.of_nat (length coll) <= n * limit).
      { destruct (Z_le_gt_dec (Z.of_nat (length coll)) (n * limit)) as [|Hgt]; [done|].
        assert (Hlt : n * limit < Z.of_nat (length coll)) by lia.
        apply ceil_div_lt in Hlt; [|lia]. unfold n in Hlt. lia. }
      nia.
    + intros i. cbn beta. do 2 f_equal. nia.
Qed.

Lemma get_notes_pages_cover_witness :
  1 <= 2 <= 100 /\ Z.of_nat (length sample_notes) < 2 ^ 53 /\
  exists rs : list Page,
    Forall2 (fun page r => get_notes (Some page) (Some 2) sample_notes = Returns r)
      (pages_upto (ceil_div (Z.of_nat (length sample_notes)) 2)) rs /\
    concat (map results rs) = serialize_docs sample_notes.
Proof.
  split; [lia|]. split; [vm_compute; reflexivity|].
  apply (get_notes_pages_cover 2 sample_notes); [lia|vm_compute; reflexivity].
Defined.

(** ** Search *)

Lemma search_notes_plain_any (q : string) (folder : option string) (coll : Collection) :
  q <> "" -> plain q ->
  search_notes (Some q) folder coll =
    Some (Returns {| data := serialize_docs
      (find (let base := f_or [field_regex "title" (literal_pieces (chars q));
                               field_regex "body" (literal_pieces (chars q))] in
             if truthy folder
             then f_and base (field_eq "folder" (VStr (default "" folder)))
             else base) coll) |}).
Proof.
  intros Hne Hq. unfold search_notes, Query_str.
  destruct q as [|c q]; [done|]. cbn [String.length Nat.leb].
  rewrite regex_compile_plain by done. reflexivity.
Qed.



Lemma regex_search_literal_case (q1 q2 s : list ascii) :
  map lower q1 = map lower q2 ->
  regex_search (literal_pieces q1) s = regex_search (literal_pieces q2) s.
Proof.
  intros Heq. apply eq_true_iff_eq. rewrite !regex_search_literal. by rewrite Heq.
Qed.

(** X14.  The case of the query does not matter: two non-empty queries
    without metacharacters that differ only in the case of their letters
    get the same response from search-notes, for every folder parameter
    and collection. *)
Theorem search_notes_ignores_query_case (q1 q2 : string) (folder : option string)
    (coll : Collection) :
  q1 <> "" -> q2 <> "" -> plain q1 -> plain q2 ->
  map lower (chars q1) = map lower (chars q2) ->
  search_notes (Some q1) folder coll = search_notes (Some q2) folder coll.
Proof.
  intros H1 H2 Hp1 Hp2 Heq.
  rewrite !search_notes_plain_any by done.
  do 3 f_equal. unfold find. f_equal. apply filter_ext. intros d.
  assert (Hbase :
    f_or [field_regex "title" (literal_pieces (chars q1));
          field_regex "body" (literal_pieces (chars q1))] d =
    f_or [field_regex "title" (literal_pieces (chars q2));
          field_regex "body" (literal_pieces (chars q2))] d).
  { unfold f_or, field_regex. cbn [existsb].
    destruct (d !! "title") as [[]|], (d !! "body") as [[]|];
      rewrite ?(regex_search_literal_case _ _ _ Heq); done. }
  cbn zeta. destruct (truthy folder); [unfold f_and; by rewrite Hbase|done].
Qed.

Lemma search_notes_ignores_query_case_witness :
  "hello" <> "" /\ "HeLLo" <> "" /\ plain "hello" /\ plain "HeLLo" /\
  map lower (chars "hello") = map lower (chars "HeLLo") /\
  search_notes (Some "hello") None sample_notes
    = search_notes (Some "HeLLo") None sample_notes.
Proof.
  split; [discriminate|]. split; [discriminate|].
  split; [repeat constructor|]. split; [repeat constructor|].
  split; [reflexivity|].
  apply (search_notes_ignores_query_case "hello" "HeLLo" None sample_notes);
    [discriminate|discriminate|repeat constructor|repeat constructor|reflexivity].
Defined.

(** X15.  A query that begins with a quantifier ([*], [+] or [?]) is
    rejected by the store as an invalid pattern; search-notes and
    search-folders answer 500 with the store's message, whatever the
    collection holds. *)
Theorem search_invalid_pattern (c : ascii) (rest : string)
    (folder : option string) (coll : Collection) :
  classify c = Quantifier ->
  exists detail : string,
    search_notes (Some (String c rest)) folder coll
      = Some (Raises (HTTPException 500 detail)) /\
    search_folders (Some (String c rest)) coll
      = Some (Raises (HTTPException 500 detail)).
Proof.
  intros Hc. eexists. unfold search_notes, search_folders, Query_str, regex_compile.
  cbn [String.length Nat.leb chars list_ascii_of_string parse]. rewrite Hc.
  split; reflexivity.
Qed.

Lemma search_invalid_pattern_witness :
  classify "*" = Quantifier /\
  exists detail : string,
    search_notes (Some "*a") None sample_notes
      = Some (Raises (HTTPException 500 detail)) /\
    search_folders (Some "*a") sample_notes
      = Some (Raises (HTTPException 500 detail)).
Proof.
  split; [reflexivity|].
  apply (search_invalid_pattern "*" "a" None sample_notes). reflexivity.
Defined.

(** ** Folder aggregation *)

Lemma bump_key_elem (k k' : Value) (groups : list (Value * Z)) :
  k' ∈ (bump k groups).*1 <-> k' = k \/ k' ∈ groups.*1.
Proof.
  induction groups as [|[k1 n] rest IH]; cbn [bump].
  - cbn. rewrite list_elem_of_singleton. rewrite elem_of_nil. tauto.
  - destruct (decide (k = k1)) as [->|Hne].
    + rewrite !fmap_cons, !elem_of_cons. cbn [fst]. tauto.
    + rewrite !fmap_cons, !elem_of_cons, IH. cbn [fst]. tauto.
Qed.

Lemma foldl_bump_keys (coll : Collection) (groups : list (Value * Z)) (k : Value) :
  k ∈ (foldl (fun groups doc => bump (field_or_null "folder" doc) groups) groups coll).*1
  <-> k ∈ groups.*1 \/ exists doc, doc ∈ coll /\ field_or_null "folder" doc = k.
Proof.
  revert groups. induction coll as [|d coll IH]; intros groups; cbn [foldl].
  - split; [by left|]. intros [H|(doc & Hin & _)]; [done|by apply elem_of_nil in Hin].
  - rewrite IH, bump_key_elem. split.
    + intros [[->|H]|(doc & Hin & Hk)].
      * right. exists d. split; [apply list_elem_of_here|done].
      * by left.
      * right. exists doc. split; [by apply list_elem_of_further|done].
    + intros [H|(doc & Hin & Hk)]; [left; by right|].
      apply elem_of_cons in Hin as [->|Hin].
      * left. left. done.
      * right. by exists doc.
Qed.

Lemma group_sizes_keys (coll : Collection) (k : Value) :
  k ∈ (group_sizes "folder" coll).*1 <->
  exists doc, doc ∈ coll /\ field_or_null "folder" doc = k.
Proof.
  unfold group_sizes. rewrite foldl_bump_keys. split; [|by right].
  intros [H|H]; [by apply elem_of_nil in H|done].
Qed.

Lemma notes_in_positive (k : Value) (coll : Collection) (doc : Doc) :
  doc ∈ coll -> field_or_null "folder" doc = k -> 1 <= notes_in k coll.
Proof.
  intros Hin Hk. unfold notes_in.
  assert (Hmem : In doc (List.filter
            (fun d => bool_decide (field_or_null "folder" d = k)) coll)).
  { apply filter_In. split; [by apply list_elem_of_In|by apply bool_decide_eq_true_2]. }
  destruct (List.filter _ coll); [done|cbn [length]; lia].
Qed.

Lemma folder_value_string (doc : Doc) (s : string) :
  field_or_null "folder" doc = VStr s <-> in_folder s doc.
Proof.
  unfold field_or_null, in_folder. destruct (doc !! "folder") as [v|]; cbn.
  - split; [by intros ->|by intros [= ->]].
  - split; done.
Qed.

Lemma notes_in_string (s : string) (coll : Collection) :
  notes_in (VStr s) coll = Z.of_nat (length (find (field_eq "folder" (VStr s)) coll)).
Proof.
  unfold notes_in, find. do 2 f_equal. apply filter_ext. intros d.
  unfold field_eq. apply bool_decide_ext. apply folder_value_string.
Qed.

(** X16.  The names in the rows of list-folders are exactly the folder
    values that occur in the collection (null standing for a note
    without folder), and no row is empty: every [note_count] is at
    least 1.  An empty collection gives no rows. *)
Theorem get_folders_names (coll : Collection) :
  exists rows : list Doc,
    get_folders coll = Returns {| data := rows |} /\
    (forall k, k ∈ map (field_or_null "name") rows <->
               exists doc, doc ∈ coll /\ field_or_null "folder" doc = k) /\
    Forall (fun row => 1 <= row_count row) rows /\
    (coll = [] -> rows = []).
Proof.
  destruct (get_folders_rows coll) as (rows & Hret & Hperm).
  destruct (group_sizes_spec coll) as [Hnd Hsz].
  assert (Hnames : map (field_or_null "name") rows
                    ≡ₚ (group_sizes "folder" coll).*1).
  { etrans; [apply Permutation_map, Hperm|]. rewrite map_map.
    erewrite map_ext; [reflexivity|]. intros g. apply projected_group_name. }
  exists rows. split; [done|]. split; [|split].
  - intros k. rewrite Hnames. apply group_sizes_keys.
  - rewrite Hperm. apply Forall_forall. intros row Hin.
    apply list_elem_of_In, in_map_iff in Hin as ([k n] & <- & Hg).
    rewrite projected_group_count. cbn [snd].
    apply list_elem_of_In in Hg. rewrite (Hsz k n Hg).
    assert (Hk : k ∈ (group_sizes "folder" coll).*1).
    { apply list_elem_of_fmap. by exists (k, n). }
    apply group_sizes_keys in Hk as (doc & Hdoc & Hkey).
    by apply (notes_in_positive k coll doc).
  - intros ->. cbn in Hperm. by apply Permutation_nil_r in Hperm.
Qed.

(** X17.  The folder listing and get-folder-with-notes agree: when
    notes have the folder [name], list-folders has a row named [name]
    whose [note_count] is the [note_count] that get-folder-with-notes
    reports for [name]. *)
Theorem folder_counts_agree (name : string) (coll : Collection) :
  find (field_eq "folder" (VStr name)) coll <> [] ->
  exists (rows : list Doc) (r : FolderNotes) (row : Doc),
    get_folders coll = Returns {| data := rows |} /\
    get_folder_with_notes name coll = Returns {| data := r |} /\
    row ∈ rows /\
    row !! "name" = Some (VStr name) /\
    row !! "note_count" = Some (VInt (note_count r)).
Proof.
  intros Hne.
  destruct (get_folders_rows coll) as (rows & Hret & Hperm).
  destruct (group_sizes_spec coll) as [Hnd Hsz].
  assert (Hk : VStr name ∈ (group_sizes "folder" coll).*1).
  { apply group_sizes_keys.
    destruct (find (field_eq "folder" (VStr name)) coll) as [|doc rest] eqn:Hfind;
      [done|].
    assert (Hin : doc ∈ find (field_eq "folder" (VStr name)) coll)
      by (rewrite Hfind; apply list_elem_of_here).
    exists doc.
    split; [exact (find_subseteq (field_eq "folder" (VStr name)) coll doc Hin)|].
    apply folder_value_string.
    pose proof (find_in_folder name coll) as Hall.
    rewrite Forall_forall in Hall. by apply Hall. }
  apply list_elem_of_fmap in Hk as ([k n] & Hkey & Hg). cbn in Hkey. subst k.
  eexists rows, _, _. split; [done|].
  split; [by apply get_folder_with_notes_found|].
  split; [|split].
  - rewrite Hperm. apply list_elem_of_In, in_map_iff.
    exists (VStr name, n). split; [reflexivity|by apply list_elem_of_In].
  - cbn [fst snd]. apply project_name_count_lookup_name, lookup_insert_eq.
  - cbn [fst snd note_count]. rewrite project_name_count_lookup_count.
    rewrite lookup_insert_ne by done. rewrite lookup_singleton_eq.
    rewrite (Hsz _ _ Hg), notes_in_string. done.
Qed.

Lemma folder_counts_agree_witness :
  find (field_eq "folder" (VStr "A")) sample_notes <> [] /\
  exists (rows : list Doc) (r : FolderNotes) (row : Doc),
    get_folders sample_notes = Returns {| data := rows |} /\
    get_folder_with_notes "A" sample_notes = Returns {| data := r |} /\
    row ∈ rows /\
    row !! "name" = Some (VStr "A") /\
    row !! "note_count" = Some (VInt (note_count r)).
Proof.
  split; [vm_compute; discriminate|].
  apply (folder_counts_agree "A" sample_notes). vm_compute. discriminate.
Defined.






(** ** Further listing and search behaviour *)

(** X19.  Without parameters list-notes is page 1 with limit 50: on a
    collection of fewer than [2 ^ 53] notes it returns the first 50
    notes (all of them when there are fewer), no previous link, and a
    next link exactly when the collection has more than 50 notes. *)
Theorem get_notes_defaults (coll : Collection) :
  Z.of_nat (length coll) < 2 ^ 53 ->
  exists r : Page,
    get_notes None None coll = Returns r /\
    results r = serialize_docs (take 50 coll) /\
    count r = Z.of_nat (length coll) /\
    previous r = None /\
    (next r = Some "/notes/?page=2&limit=50" <-> 50 < Z.of_nat (length coll)) /\
    (next r = None <-> Z.of_nat (length coll) <= 50).
Proof.
  intros Hn. eexists.
  split; [exact (get_notes_valid 1 50 coll ltac:(lia) ltac:(lia) Hn)|].
  cbn [page_of results count previous next].
  split; [done|]. split; [done|]. split; [done|].
  destruct (Z.ltb_spec 1 (ceil_div (Z.of_nat (length coll)) 50)) as [Hlt|Hge].
  - apply ceil_div_lt in Hlt; [|lia]. split; split; (done || lia).
  - assert (~ 1 * 50 < Z.of_nat (length coll)).
    { intros H. apply ceil_div_lt in H; lia. }
    split; split; (done || lia).
Qed.

Lemma get_notes_defaults_witness :
  Z.of_nat (length sample_notes) < 2 ^ 53 /\
  exists r : Page,
    get_notes None None sample_notes = Returns r /\
    results r = serialize_docs (take 50 sample_notes) /\
    count r = Z.of_nat (length sample_notes) /\
    previous r = None /\
    (next r = Some "/notes/?page=2&limit=50" <-> 50 < Z.of_nat (length sample_notes)) /\
    (next r = None <-> Z.of_nat (length sample_notes) <= 50).
Proof.
  split; [vm_compute; reflexivity|].
  apply (get_notes_defaults sample_notes). vm_compute. reflexivity.
Defined.




(** X21.  For a limit between 1 and 100, on a collection of fewer than
    [2 ^ 53] notes in which the folder has notes, the pages 1 to
    [ceil (count / limit)] of the by-folder listing all succeed and
    their results, put end to end, are the serialized notes of the
    folder, in collection order. *)
Theorem get_notes_by_folder_pages_cover (folder_name : string) (limit : Z)
    (coll : Collection) :
  1 <= limit <= 100 -> Z.of_nat (length coll) < 2 ^ 53 ->
  find (field_eq "folder" (VStr folder_name)) coll <> [] ->
  exists rs : list Page,
    Forall2 (fun page r =>
               get_notes_by_folder folder_name (Some page) (Some limit) coll = Returns r)
      (pages_upto (ceil_div
         (Z.of_nat (length (find (field_eq "folder" (VStr folder_name)) coll))) limit))
      rs /\
    concat (map results rs)
      = serialize_docs (find (field_eq "folder" (VStr folder_name)) coll).
Proof.
  intros Hl Hn Hne.
  set (matching := find (field_eq "folder" (VStr folder_name)) coll) in *.
  set (n := ceil_div (Z.of_nat (length matching)) limit).
  exists (map (fun page => page_of ("/notes/by-folder/" ++ folder_name)
                             (Some folder_name) page limit matching) (pages_upto n)).
  split.
  - apply Forall2_fmap_r, Forall_Forall2_diag, Forall_forall. intros page Hin.
    apply get_notes_by_folder_valid; [|done|done|done].
    unfold pages_upto in Hin.
    apply list_elem_of_In, in_map_iff in Hin as (i & <- & _). lia.
  - unfold pages_upto. rewrite !map_map. cbn [page_of results].
    unfold serialize_docs.
    rewrite <- (map_map (fun i => take (Z.to_nat limit)
                           (drop (Z.to_nat ((Z.of_nat (S i) - 1) * limit)) matching))
                        (map serialize_doc)).
    rewrite <- concat_map. f_equal.
    erewrite map_ext;
      [rewrite (windows_concat (Z.to_nat limit) matching (Z.to_nat n))|].
    + apply take_ge.
      assert (0 <= n) by (apply Z.div_pos; lia).
      assert (Hcover : Z.of_nat (length matching) <= n * limit).
      { destruct (Z_le_gt_dec (Z.of_nat (length matching)) (n * limit)) as [|Hgt];
          [done|].
        assert (Hlt : n * limit < Z.of_nat (length matching)) by lia.
        apply ceil_div_lt in Hlt; [|lia]. unfold n in Hlt. lia. }
      nia.
    + intros i. cbn beta. do 2 f_equal. nia.
Qed.

Lemma get_notes_by_folder_pages_cover_witness :
  1 <= 2 <= 100 /\ Z.of_nat (length sample_notes) < 2 ^ 53 /\
  find (field_eq "folder" (VStr "A")) sample_notes <> [] /\
  exists rs : list Page,
    Forall2 (fun page r =>
               get_notes_by_folder "A" (Some page) (Some 2) sample_notes = Returns r)
      (pages_upto (ceil_div
         (Z.of_nat (length (find (field_eq "folder" (VStr "A")) sample_notes))) 2))
      rs /\
    concat (map results rs)
      = serialize_docs (find (field_eq "folder" (VStr "A")) sample_notes).
Proof.
  split; [lia|]. split; [vm_compute; reflexivity|]. split; [vm_compute; discriminate|].
  apply (get_notes_by_folder_pages_cover "A" 2 sample_notes);
    [lia|vm_compute; reflexivity|vm_compute; discriminate].
Defined.

Lemma find_f_and_empty (f g : Filter) (coll : Collection) :
  find g coll = [] -> find (f_and f g) coll = [].
Proof.
  unfold find, f_and. induction coll as [|d coll IH]; [done|].
  cbn [List.filter]. destruct (g d); [done|].
  rewrite andb_false_r. apply IH.
Qed.

(** X22.  A search restricted to a folder that no note has succeeds
    with empty data (for a non-empty query without metacharacters):
    unlike the folder endpoints, search-notes does not treat an unknown
    folder as an error. *)
Theorem search_notes_unknown_folder (q f : string) (coll : Collection) :
  q <> "" -> plain q -> f <> "" ->
  find (field_eq "folder" (VStr f)) coll = [] ->
  search_notes (Some q) (Some f) coll = Some (Returns {| data := [] |}).
Proof.
  intros Hne Hq Hf Hnone. rewrite search_notes_plain_any by done.
  assert (Htr : truthy (Some f) = true) by (by destruct f).
  rewrite Htr. cbn [default]. cbn zeta.
  by rewrite (find_f_and_empty _ _ coll Hnone).
Qed.

Lemma search_notes_unknown_folder_witness :
  "hello" <> "" /\ plain "hello" /\ "Z" <> "" /\
  find (field_eq "folder" (VStr "Z")) sample_notes = [] /\
  search_notes (Some "hello") (Some "Z") sample_notes = Some (Returns {| data := [] |}).
Proof.
  split; [discriminate|]. split; [repeat constructor|]. split; [discriminate|].
  split; [vm_compute; reflexivity|].
  apply (search_notes_unknown_folder "hello" "Z" sample_notes);
    [discriminate|repeat constructor|discriminate|vm_compute; reflexivity].
Defined.
